(** * tljh.config: the configuration mutation engine

    A shallow embedding of [tljh/config.py]: the four mutation operations
    ([set_item_in_config], [unset_item_from_config], [add_item_to_config],
    [remove_item_from_config]), the pruning helper [remove_empty_configs],
    the validation step [validate_config], the four file-level commands and
    the value coercion [parse_value].

    Python objects live in a store; the operations run in a state-and-error
    monad over that store, so that [deepcopy] and the in-place updates of the
    copy are visible in the model. *)

From Stdlib Require Import ZArith Ascii String Floats.SpecFloat.
From stdpp Require Import gmap strings list fin_maps.

#[local] Set Warnings "-register-all".
#[local] Open Scope string_scope.
#[local] Open Scope list_scope.

(** ** Python values *)

(** A document node, as [yaml.load] and [parse_value] produce them: [None],
    [bool], [int], [float] (an IEEE 754 binary64 value), [str], [list] and
    [dict] with string keys.  Dictionaries are finite maps: which key came
    first is not recorded. *)
Inductive pyval : Type :=
| PyNone
| PyBool (b : bool)
| PyInt (n : Z)
| PyFloat (f : spec_float)
| PyStr (s : string)
| PyList (items : list pyval)
| PyDict (entries : gmap string pyval).

(** The exceptions this module can end with.  [ValueError] carries its
    message: the three [ValueError]s of the module differ only by it. *)
Inductive exn : Type :=
| ValueError (msg : string)
| KeyError (key : string)
| IndexError
| TypeError
| AttributeError
| SystemExit (code : nat).

Module Py.

#[local] Open Scope Z_scope.

(** *** Strings *)

(** [s.split(".")]: one segment more than there are dots, empty segments
    kept. *)
Fixpoint split_on (sep : ascii) (s : string) : list string :=
  match s with
  | EmptyString => [EmptyString]
  | String c s' =>
      if Ascii.eqb c sep then EmptyString :: split_on sep s'
      else match split_on sep s' with
           | [] => [String c EmptyString]
           | seg :: segs => String c seg :: segs
           end
  end.

Fixpoint is_prefix (p s : string) : bool :=
  match p, s with
  | EmptyString, _ => true
  | String a p', String b s' => Ascii.eqb a b && is_prefix p' s'
  | String _ _, EmptyString => false
  end.

(** [sub in s] for two strings: substring search. *)
Fixpoint str_contains (sub s : string) : bool :=
  is_prefix sub s ||
  match s with
  | EmptyString => false
  | String _ s' => str_contains sub s'
  end.

Definition is_digit (c : ascii) : bool :=
  let n := N_of_ascii c in ((48 <=? n) && (n <=? 57))%N.

Definition is_upper (c : ascii) : bool :=
  let n := N_of_ascii c in ((65 <=? n) && (n <=? 90))%N.

(** [s.lower()] on the letters A to Z; the other characters are kept.
    Strings are read as sequences of one-byte characters; none of those
    outside A to Z lowers to a letter of "true" or "false". *)
Definition lower_char (c : ascii) : ascii :=
  if is_upper c then ascii_of_N (N_of_ascii c + 32) else c.

Fixpoint lower (s : string) : string :=
  match s with
  | EmptyString => EmptyString
  | String c s' => String (lower_char c) (lower s')
  end.

Fixpoint all_digits (s : string) : bool :=
  match s with
  | EmptyString => true
  | String c s' => is_digit c && all_digits s'
  end.

Definition newline : ascii := ascii_of_N 10.

(** What a pattern ending in [$] sees: [$] matches at the end of the
    string and also just before a newline that ends the string. *)
Fixpoint chomp (s : string) : string :=
  match s with
  | EmptyString => EmptyString
  | String c EmptyString => if Ascii.eqb c newline then EmptyString else s
  | String c s' => String c (chomp s')
  end.

Definition nonempty (s : string) : bool :=
  match s with EmptyString => false | _ => true end.

(** [re.match(r"^\d+$", s)], with [\d] read as 0 to 9. *)
Definition match_digits (s : string) : bool :=
  let body := chomp s in nonempty body && all_digits body.

(** The part of [s] before the first dot and the part after it. *)
Fixpoint cut_at_dot (s : string) : option (string * string) :=
  match s with
  | EmptyString => None
  | String c s' =>
      if Ascii.eqb c "." then Some (EmptyString, s')
      else match cut_at_dot s' with
           | Some (a, b) => Some (String c a, b)
           | None => None
           end
  end.

(** [re.match(r"^\d+\.\d*$", s)]. *)
Definition match_decimal (s : string) : bool :=
  match cut_at_dot (chomp s) with
  | Some (a, b) => nonempty a && all_digits a && all_digits b
  | None => false
  end.

(** *** Numbers *)

Definition digit_val (c : ascii) : Z := Z.of_N (N_of_ascii c) - 48.

Fixpoint digits_val (acc : Z) (s : string) : Z :=
  match s with
  | EmptyString => acc
  | String c s' => digits_val (10 * acc + digit_val c) s'
  end.

(** [int(s)] for a string that [match_digits] accepts ([int] skips the
    surrounding white space, so the newline that [$] let through is
    dropped). *)
Definition int_of_str (s : string) : Z := digits_val 0 (chomp s).

Definition binary64_div : spec_float -> spec_float -> spec_float :=
  SFdiv 53 1024.

Definition float_of_Z (n : Z) : spec_float :=
  match n with
  | Z0 => S754_zero false
  | Zpos p => S754_finite false p 0
  | Zneg p => S754_finite true p 0
  end.

(** The binary64 value nearest to [n / 10^scale], ties to even: the
    correctly rounded quotient. *)
Definition nearest_binary64 (n : Z) (scale : nat) : spec_float :=
  match n with
  | Z0 => S754_zero false
  | _ => binary64_div (float_of_Z n) (float_of_Z (10 ^ Z.of_nat scale))
  end.

(** [float(s)] for a string that [match_decimal] accepts: the digits
    around the dot, read as a decimal and rounded to binary64. *)
Definition float_of_str (s : string) : spec_float :=
  match cut_at_dot (chomp s) with
  | Some (a, b) =>
      nearest_binary64 (digits_val (digits_val 0 a) b) (String.length b)
  | None => S754_nan
  end.

(** Does the character [c] not occur in [s]? *)
Fixpoint free_of (c : ascii) (s : string) : bool :=
  match s with
  | EmptyString => true
  | String c' s' => negb (Ascii.eqb c' c) && free_of c s'
  end.

(** Is the integer [n] the number that [f] stands for? *)
Definition Z_eq_float (n : Z) (f : spec_float) : bool :=
  match f with
  | S754_zero _ => n =? 0
  | S754_finite s m e =>
      let z := if s then Z.neg m else Z.pos m in
      if 0 <=? e then n =? z * 2 ^ e else n * 2 ^ (- e) =? z
  | _ => false
  end.

(** *** Equality and membership *)

(** [a == b].  [bool] is a subclass of [int], and an [int] equals the
    [float] of the same number, so [True == 1 == 1.0]. *)
Fixpoint equal (a b : pyval) {struct a} : bool :=
  match a, b with
  | PyNone, PyNone => true
  | PyBool x, PyBool y => Bool.eqb x y
  | PyBool x, PyInt n | PyInt n, PyBool x => n =? Z.b2z x
  | PyBool x, PyFloat f | PyFloat f, PyBool x => Z_eq_float (Z.b2z x) f
  | PyInt n, PyInt k => n =? k
  | PyInt n, PyFloat f | PyFloat f, PyInt n => Z_eq_float n f
  | PyFloat f, PyFloat g => SFeqb f g
  | PyStr s, PyStr t => String.eqb s t
  | PyList xs, PyList ys =>
      (fix all2 (xs ys : list pyval) {struct xs} : bool :=
         match xs, ys with
         | [], [] => true
         | x :: xs', y :: ys' => equal x y && all2 xs' ys'
         | _, _ => false
         end) xs ys
  | PyDict m, PyDict m' =>
      (size m =? size m')%nat &&
      map_fold (fun k x acc =>
                  acc && match m' !! k with
                         | Some y => equal x y
                         | None => false
                         end) true m
  | _, _ => false
  end.

(** [isinstance(item, Mapping)] *)
Definition is_mapping (v : pyval) : bool :=
  match v with PyDict _ => true | _ => false end.

(** [isinstance(item, Sequence)]: [list] is a [Sequence], and so is
    [str]. *)
Definition is_sequence (v : pyval) : bool :=
  match v with PyList _ | PyStr _ => true | _ => false end.

(** [key in container] for a string [key]: key lookup in a [dict], a
    search by [==] in a [list], substring search in a [str]; the other
    values are not iterable. *)
Definition contains (container : pyval) (key : string) : exn + bool :=
  match container with
  | PyDict m => inr (bool_decide (is_Some (m !! key)))
  | PyList xs => inr (existsb (fun x => equal x (PyStr key)) xs)
  | PyStr s => inr (str_contains key s)
  | _ => inl TypeError
  end.

(** [xs.remove(value)] on the items of a list: the items without the
    first one that equals [value], if there is one.  (Python also takes an
    item that is the very object [value]; this differs from [==] for NaN
    only.) *)
Fixpoint list_remove (xs : list pyval) (value : pyval) : option (list pyval) :=
  match xs with
  | [] => None
  | x :: xs' =>
      if equal x value then Some xs'
      else match list_remove xs' value with
           | Some r => Some (x :: r)
           | None => None
           end
  end.

End Py.


(** ** The store *)

(** An object of the store is a whole tree: the document the caller holds,
    the deep copy an operation makes of it.  A reference names an object
    and a position inside it, the keys to follow from its root.  This is
    how [cur_part] and [conf_iter] alias the inside of [config_copy]: a
    write through the reference updates the object it points into.
    Documents are trees, as the YAML loader builds them from a file without
    anchors: no node is reached along two paths.  A value handed to an
    operation is stored as it is. *)
Definition loc := nat.

Record ref : Type := Ref { ref_root : loc; ref_path : list string }.

Abbreviation store := (list pyval).

(** The node of [t] reached by following the keys [p]. *)
Fixpoint get_at (t : pyval) (p : list string) {struct p} : option pyval :=
  match p with
  | [] => Some t
  | k :: p' =>
      match t with
      | PyDict m => match m !! k with
                    | Some c => get_at c p'
                    | None => None
                    end
      | _ => None
      end
  end.

(** [t] with the node at [p] replaced by [x]. *)
Fixpoint put_at (t : pyval) (p : list string) (x : pyval) {struct p} : pyval :=
  match p with
  | [] => x
  | k :: p' =>
      match t with
      | PyDict m => PyDict (alter (fun c => put_at c p' x) k m)
      | _ => t
      end
  end.

(** How a run ends: with a value, with a Python exception, or [Stuck] on a
    reference that points nowhere, for instance to a position that has
    been deleted from its object.  The four operations never end so when
    they are run on a document of the store. *)
Inductive outcome (A : Type) : Type :=
| Ok (a : A)
| Raise (e : exn)
| Stuck.
Arguments Ok {A} a.
Arguments Raise {A} e.
Arguments Stuck {A}.

Definition M (A : Type) : Type := store -> outcome A * store.

Definition ret {A} (a : A) : M A := fun σ => (Ok a, σ).

Definition bind {A B} (m : M A) (f : A -> M B) : M B :=
  fun σ => match m σ with
           | (Ok a, σ') => f a σ'
           | (Raise e, σ') => (Raise e, σ')
           | (Stuck, σ') => (Stuck, σ')
           end.

Definition raise {A} (e : exn) : M A := fun σ => (Raise e, σ).

Notation "x <- m ;; k" := (bind m (fun x => k))
  (at level 100, m at next level, right associativity).
Notation "m ;; k" := (bind m (fun _ => k))
  (at level 100, right associativity).

Definition lift {A} (r : exn + A) : M A :=
  match r with inl e => raise e | inr a => ret a end.

(** The value a reference points to, if it points somewhere. *)
Definition deref (σ : store) (r : ref) : option pyval :=
  match σ !! ref_root r with
  | Some t => get_at t (ref_path r)
  | None => None
  end.

Definition load (r : ref) : M pyval :=
  fun σ => match deref σ r with
           | Some v => (Ok v, σ)
           | None => (Stuck, σ)
           end.

Definition save (r : ref) (x : pyval) : M unit :=
  fun σ => match σ !! ref_root r with
           | Some t => (Ok tt, <[ref_root r := put_at t (ref_path r) x]> σ)
           | None => (Stuck, σ)
           end.

Definition alloc (v : pyval) : M ref :=
  fun σ => (Ok (Ref (length σ) []), σ ++ [v]).

(** *** The Python operations the module uses *)

(** [copy.deepcopy(x)]: a new object with the same content. *)
Definition deepcopy (x : ref) : M ref :=
  v <- load x ;; alloc v.

(** [key in container] *)
Definition py_in (key : string) (container : ref) : M bool :=
  v <- load container ;; lift (Py.contains v key).

(** [container[key]] for a string key: the entry of a [dict]; a [list] and
    a [str] take integer indices only, the other values none. *)
Definition py_getitem (container : ref) (key : string) : M ref :=
  v <- load container ;;
  match v with
  | PyDict m =>
      match m !! key with
      | Some _ => ret (Ref (ref_root container) (ref_path container ++ [key]))
      | None => raise (KeyError key)
      end
  | _ => raise TypeError
  end.

(** [container[key] = value] *)
Definition py_setitem (container : ref) (key : string) (value : pyval) : M unit :=
  v <- load container ;;
  match v with
  | PyDict m => save container (PyDict (<[key := value]> m))
  | _ => raise TypeError
  end.

(** [del container[key]] *)
Definition py_delitem (container : ref) (key : string) : M unit :=
  v <- load container ;;
  match v with
  | PyDict m =>
      match m !! key with
      | Some _ => save container (PyDict (delete key m))
      | None => raise (KeyError key)
      end
  | _ => raise TypeError
  end.

(** [xs.append(value)]: only a [list] has the method. *)
Definition py_append (xs : ref) (value : pyval) : M unit :=
  v <- load xs ;;
  match v with
  | PyList items => save xs (PyList (items ++ [value]))
  | _ => raise AttributeError
  end.

(** The [ValueError] of [list.remove]. *)
Definition not_in_list : exn := ValueError "list.remove(x): x not in list".

(** [xs.remove(value)] *)
Definition py_remove (xs : ref) (value : pyval) : M unit :=
  v <- load xs ;;
  match v with
  | PyList items =>
      match Py.list_remove items value with
      | Some items' => save xs (PyList items')
      | None => raise not_in_list
      end
  | _ => raise AttributeError
  end.

(** [x == {}] *)
Definition py_eq_empty_dict (x : ref) : M bool :=
  v <- load x ;; ret (Py.equal v (PyDict ∅)).

(** [xs[i]] on the list of path components. *)
Definition py_index (xs : list string) (i : nat) : M string :=
  match xs !! i with
  | Some x => ret x
  | None => raise IndexError
  end.

(** [xs[:-1]] *)
Definition but_last {A} (xs : list A) : list A := take (length xs - 1) xs.

(** What the body of a loop says at its end: go on, or [break]. *)
Inductive ctl : Type := Continue | Break.

(** [for i, x in enumerate(xs)] with a local variable that the body
    updates. *)
Fixpoint for_enumerate {A St} (body : nat -> A -> St -> M (ctl * St))
    (i : nat) (xs : list A) (s : St) : M St :=
  match xs with
  | [] => ret s
  | x :: xs' =>
      r <- body i x s ;;
      match r with
      | (Continue, s') => for_enumerate body (S i) xs' s'
      | (Break, s') => ret s'
      end
  end.

(** ** The mutation operations of config.py *)

Definition _is_dict (item : ref) : M bool :=
  v <- load item ;; ret (Py.is_mapping v).

Definition _is_list (item : ref) : M bool :=
  v <- load item ;; ret (Py.is_sequence v).

(** [cur_path not in cur_part or not check(cur_part[cur_path])], with the
    short cut of [or]. *)
Definition absent_or_not (check : ref -> M bool) (cur_part : ref)
    (cur_path : string) : M bool :=
  present <- py_in cur_path cur_part ;;
  if negb present then ret true
  else item <- py_getitem cur_part cur_path ;;
       ok <- check item ;;
       ret (negb ok).

(** The body of the loop of [set_item_in_config]; its first line reads the
    loop variable again, as [path_components[i]]. *)
Definition set_item_step (path_components : list string) (value : pyval)
    (i : nat) (_ : string) (cur_part : ref) : M (ctl * ref) :=
  cur_path <- py_index path_components i ;;
  if (i =? length path_components - 1)%nat then
    py_setitem cur_part cur_path value ;;
    ret (Continue, cur_part)
  else
    fresh <- absent_or_not _is_dict cur_part cur_path ;;
    (if fresh : bool then py_setitem cur_part cur_path (PyDict ∅) else ret tt) ;;
    next <- py_getitem cur_part cur_path ;;
    ret (Continue, next).

Definition set_item_in_config (config : ref) (property_path : string)
    (value : pyval) : M ref :=
  let path_components := Py.split_on "." property_path in
  config_copy <- deepcopy config ;;
  for_enumerate (set_item_step path_components value)
                0 path_components config_copy ;;
  ret config_copy.

(** The body of the loop of [remove_empty_configs]; [recurse] is the call
    [remove_empty_configs(configuration, path[:-1])]. *)
Definition remove_empty_step (recurse : M unit)
    (_ : nat) (cur_path : string) (conf_iter : ref) : M (ctl * ref) :=
  item <- py_getitem conf_iter cur_path ;;
  empty <- py_eq_empty_dict item ;;
  if empty : bool then
    py_delitem conf_iter cur_path ;;
    recurse ;;
    ret (Continue, conf_iter)
  else
    next <- py_getitem conf_iter cur_path ;;
    ret (Continue, next).

(** [remove_empty_configs(configuration, path[:n])].  The call on [path]
    itself is the one with [n = len(path)]; the recursive call on
    [path[:-1]] is the one with [n - 1], and [n = 0] is the empty path. *)
Fixpoint remove_empty_configs_upto (n : nat) (configuration : ref)
    (path : list string) : M unit :=
  match n with
  | O => ret tt
  | S n' =>
      for_enumerate
        (remove_empty_step (remove_empty_configs_upto n' configuration path))
        0 (take n path) configuration ;;
      ret tt
  end.

Definition remove_empty_configs (configuration : ref) (path : list string)
    : M unit :=
  remove_empty_configs_upto (length path) configuration path.

Definition does_not_exist (property_path : string) : exn :=
  ValueError (property_path +:+ " does not exist in config!").

Definition is_not_a_list (property_path : string) : exn :=
  ValueError (property_path +:+ " is not a list").

(** The body of the loop of [unset_item_from_config]. *)
Definition unset_item_step (config_copy : ref) (property_path : string)
    (path_components : list string)
    (i : nat) (cur_path : string) (cur_part : ref) : M (ctl * ref) :=
  if (i =? length path_components - 1)%nat then
    present <- py_in cur_path cur_part ;;
    if negb present then raise (does_not_exist property_path)
    else
      py_delitem cur_part cur_path ;;
      remove_empty_configs config_copy (but_last path_components) ;;
      ret (Break, cur_part)
  else
    present <- py_in cur_path cur_part ;;
    if negb present then raise (does_not_exist property_path)
    else
      next <- py_getitem cur_part cur_path ;;
      ret (Continue, next).

Definition unset_item_from_config (config : ref) (property_path : string)
    : M ref :=
  let path_components := Py.split_on "." property_path in
  config_copy <- deepcopy config ;;
  for_enumerate (unset_item_step config_copy property_path path_components)
                0 path_components config_copy ;;
  ret config_copy.

(** The body of the loop of [add_item_to_config]. *)
Definition add_item_step (path_components : list string) (value : pyval)
    (i : nat) (cur_path : string) (cur_part : ref) : M (ctl * ref) :=
  if (i =? length path_components - 1)%nat then
    fresh <- absent_or_not _is_list cur_part cur_path ;;
    (if fresh : bool then py_setitem cur_part cur_path (PyList []) else ret tt) ;;
    next <- py_getitem cur_part cur_path ;;
    py_append next value ;;
    ret (Continue, next)
  else
    fresh <- absent_or_not _is_dict cur_part cur_path ;;
    (if fresh : bool then py_setitem cur_part cur_path (PyDict ∅) else ret tt) ;;
    next <- py_getitem cur_part cur_path ;;
    ret (Continue, next).

Definition add_item_to_config (config : ref) (property_path : string)
    (value : pyval) : M ref :=
  let path_components := Py.split_on "." property_path in
  config_copy <- deepcopy config ;;
  for_enumerate (add_item_step path_components value)
                0 path_components config_copy ;;
  ret config_copy.

(** The body of the loop of [remove_item_from_config]. *)
Definition remove_item_step (property_path : string)
    (path_components : list string) (value : pyval)
    (i : nat) (cur_path : string) (cur_part : ref) : M (ctl * ref) :=
  if (i =? length path_components - 1)%nat then
    bad <- absent_or_not _is_list cur_part cur_path ;;
    if bad : bool then raise (is_not_a_list property_path)
    else
      next <- py_getitem cur_part cur_path ;;
      py_remove next value ;;
      ret (Continue, next)
  else
    bad <- absent_or_not _is_dict cur_part cur_path ;;
    if bad : bool then raise (does_not_exist property_path)
    else
      next <- py_getitem cur_part cur_path ;;
      ret (Continue, next).

Definition remove_item_from_config (config : ref) (property_path : string)
    (value : pyval) : M ref :=
  let path_components := Py.split_on "." property_path in
  config_copy <- deepcopy config ;;
  for_enumerate (remove_item_step property_path path_components value)
                0 path_components config_copy ;;
  ret config_copy.

(** ** Validation and the file-level commands *)

(** The files: the document each configuration file holds (its YAML text
    is not modelled), and the lock files another process is holding. *)
Record world : Type := World { files : gmap string pyval; held : gset string }.

(** [get_current_config(config_path)]: the document of the file, [{}] when
    there is no file. *)
Definition get_current_config (w : world) (config_path : string) : pyval :=
  match files w !! config_path with
  | Some config => config
  | None => PyDict ∅
  end.

Section Commands.

(** [jsonschema.validate(instance=config, schema=config_schema)]: [None]
    when the document conforms, otherwise the message of the
    [ValidationError].  The schema is not part of this module. *)
Variable jsonschema_validate : pyval -> option string.

Definition validate_config (config : pyval) (validate : bool) : exn + unit :=
  match jsonschema_validate config with
  | None => inr tt
  | Some _ => if validate then inl (SystemExit 1) else inr tt
  end.

(** The body shared by the four commands: take the lock, load the
    document, run the mutation on it, validate, write the file. *)
Definition write_command (mutate : ref -> M ref) (config_path : string)
    (validate : bool) (w : world) : outcome unit * world :=
  if bool_decide (config_path +:+ ".lock" ∈ held w)
  then (Raise (SystemExit 1), w)
  else
    match (r <- mutate (Ref 0 []) ;; load r) [get_current_config w config_path] with
    | (Ok config, _) =>
        match validate_config config validate with
        | inr _ => (Ok tt, World (<[config_path := config]> (files w)) (held w))
        | inl e => (Raise e, w)
        end
    | (Raise e, _) => (Raise e, w)
    | (Stuck, _) => (Stuck, w)
    end.

Definition set_config_value (config_path key_path : string) (value : pyval)
    (validate : bool) : world -> outcome unit * world :=
  write_command (fun config => set_item_in_config config key_path value)
                config_path validate.

Definition unset_config_value (config_path key_path : string)
    (validate : bool) : world -> outcome unit * world :=
  write_command (fun config => unset_item_from_config config key_path)
                config_path validate.

Definition add_config_value (config_path key_path : string) (value : pyval)
    (validate : bool) : world -> outcome unit * world :=
  write_command (fun config => add_item_to_config config key_path value)
                config_path validate.

Definition remove_config_value (config_path key_path : string)
    (value : pyval) (validate : bool) : world -> outcome unit * world :=
  write_command (fun config => remove_item_from_config config key_path value)
                config_path validate.

End Commands.

(** A schema that every document conforms to. *)
Definition accept_all (_ : pyval) : option string := None.

(** A schema that no document conforms to. *)
Definition reject_all (_ : pyval) : option string := Some "rejected".

(** No configuration file yet, and no lock held. *)
Definition empty_world : world := World ∅ ∅.

(** ** Value coercion *)

Definition parse_value (value_str : option string) : pyval :=
  match value_str with
  | None => PyNone
  | Some s =>
      if Py.match_digits s then PyInt (Py.int_of_str s)
      else if Py.match_decimal s then PyFloat (Py.float_of_str s)
      else if String.eqb (Py.lower s) "true" then PyBool true
      else if String.eqb (Py.lower s) "false" then PyBool false
      else PyStr s
  end.

(** ** The operations as functions on trees

    What each operation computes, written as a recursive function on the
    document; [set_item_in_config_run] and its siblings below prove that
    the operations of the module compute these. *)

(** The mapping under key [k], or the empty mapping that replaces whatever
    else is there. *)
Definition child_dict (m : gmap string pyval) (k : string) : gmap string pyval :=
  match m !! k with
  | Some (PyDict c) => c
  | _ => ∅
  end.

(** The exception of an operation that meets the value [t], not a [dict],
    where it looks for key [k]: [k in t] fails, or succeeds and the
    subscript fails, or answers no and the operation does [if_absent]. *)
Definition not_a_dict_error (t : pyval) (k : string) (if_absent : exn) : exn :=
  match Py.contains t k with
  | inl e => e
  | inr true => TypeError
  | inr false => if_absent
  end.

Fixpoint set_in (m : gmap string pyval) (ks : list string) (value : pyval)
    : gmap string pyval :=
  match ks with
  | [] => m
  | k :: ks' =>
      match ks' with
      | [] => <[k := value]> m
      | _ :: _ => <[k := PyDict (set_in (child_dict m k) ks' value)]> m
      end
  end.

Definition set_tree (t : pyval) (ks : list string) (value : pyval) : exn + pyval :=
  match ks, t with
  | [], _ => inr t
  | _ :: _, PyDict m => inr (PyDict (set_in m ks value))
  | _ :: _, _ => inl TypeError
  end.

(** [add_in] also says what is left in the copy when the operation
    raises. *)
Fixpoint add_in (m : gmap string pyval) (ks : list string) (value : pyval)
    : option exn * gmap string pyval :=
  match ks with
  | [] => (None, m)
  | k :: ks' =>
      match ks' with
      | [] =>
          match m !! k with
          | Some (PyList xs) => (None, <[k := PyList (xs ++ [value])]> m)
          | Some (PyStr _) => (Some AttributeError, m)
          | _ => (None, <[k := PyList [value]]> m)
          end
      | _ :: _ =>
          let r := add_in (child_dict m k) ks' value in
          (r.1, <[k := PyDict r.2]> m)
      end
  end.

Definition add_tree (t : pyval) (ks : list string) (value : pyval)
    : option exn * pyval :=
  match ks, t with
  | [], _ => (None, t)
  | _ :: _, PyDict m => let r := add_in m ks value in (r.1, PyDict r.2)
  | _ :: _, _ => (Some TypeError, t)
  end.

Fixpoint remove_in (m : gmap string pyval) (ks : list string) (value : pyval)
    (property_path : string) : exn + gmap string pyval :=
  match ks with
  | [] => inr m
  | k :: ks' =>
      match ks' with
      | [] =>
          match m !! k with
          | Some (PyList xs) =>
              match Py.list_remove xs value with
              | Some xs' => inr (<[k := PyList xs']> m)
              | None => inl not_in_list
              end
          | Some (PyStr _) => inl AttributeError
          | _ => inl (is_not_a_list property_path)
          end
      | _ :: _ =>
          match m !! k with
          | Some (PyDict c) =>
              match remove_in c ks' value property_path with
              | inr c' => inr (<[k := PyDict c']> m)
              | inl e => inl e
              end
          | _ => inl (does_not_exist property_path)
          end
      end
  end.

Definition remove_tree (t : pyval) (ks : list string) (value : pyval)
    (property_path : string) : exn + pyval :=
  match ks, t with
  | [], _ => inr t
  | k :: ks', PyDict m =>
      match remove_in m ks value property_path with
      | inr m' => inr (PyDict m')
      | inl e => inl e
      end
  | k :: ks', _ =>
      inl (not_a_dict_error t k
             (match ks' with
              | [] => is_not_a_list property_path
              | _ :: _ => does_not_exist property_path
              end))
  end.

(** The walk of [unset_item_from_config] down to the final key and its
    deletion, before any pruning. *)
Fixpoint unset_del (t : pyval) (ks : list string) (property_path : string)
    {struct ks} : exn + pyval :=
  match ks with
  | [] => inr t
  | k :: ks' =>
      match t with
      | PyDict m =>
          match m !! k with
          | Some c =>
              match ks' with
              | [] => inr (PyDict (delete k m))
              | _ :: _ =>
                  match unset_del c ks' property_path with
                  | inr c' => inr (PyDict (<[k := c']> m))
                  | inl e => inl e
                  end
              end
          | None => inl (does_not_exist property_path)
          end
      | _ => inl (not_a_dict_error t k (does_not_exist property_path))
      end
  end.

(** [t] without the key that ends the path [p]. *)
Fixpoint del_at (t : pyval) (p : list string) {struct p} : pyval :=
  match p with
  | [] => t
  | k :: p' =>
      match t with
      | PyDict m =>
          match p' with
          | [] => PyDict (delete k m)
          | _ :: _ => PyDict (alter (fun c => del_at c p') k m)
          end
      | _ => t
      end
  end.

(** The pruning that follows a deletion: while the node at the first [n]
    keys of [path] is an empty mapping, remove it from its parent and look
    one level further up. *)
Fixpoint prune_upto (n : nat) (t : pyval) (path : list string) {struct n} : pyval :=
  match n with
  | O => t
  | S n' =>
      match get_at t (take n path) with
      | Some v =>
          if Py.equal v (PyDict ∅)
          then prune_upto n' (del_at t (take n path)) path
          else t
      | None => t
      end
  end.

Definition unset_tree (t : pyval) (ks : list string) (property_path : string)
    : exn + pyval :=
  match unset_del t ks property_path with
  | inr t' => inr (prune_upto (length ks - 1) t' (but_last ks))
  | inl e => inl e
  end.

(** The same pruning from the root downwards: a child that is empty once
    the path below it has been pruned is removed. *)
Fixpoint prune_tree (t : pyval) (p : list string) {struct p} : pyval :=
  match p with
  | [] => t
  | k :: p' =>
      match t with
      | PyDict m =>
          match m !! k with
          | Some c =>
              let c' := prune_tree c p' in
              if Py.equal c' (PyDict ∅) then PyDict (delete k m)
              else PyDict (<[k := c']> m)
          | None => t
          end
      | _ => t
      end
  end.

(** ** The specification's reading of the operations *)

(** [unset] in the words of the specification: delete the final key, then
    walk back up from the parent towards the root, removing a mapping that
    is now empty and going on upwards as long as one was removed. *)
Fixpoint spec_prune_upwards (ancestors : nat) (doc : pyval) (path : list string)
    : pyval :=
  match ancestors with
  | O => doc
  | S above =>
      let parent := take ancestors path in
      match get_at doc parent with
      | Some (PyDict m) =>
          if bool_decide (m = ∅)
          then spec_prune_upwards above (del_at doc parent) path
          else doc
      | _ => doc
      end
  end.

Definition spec_unset (doc : pyval) (path : list string) : pyval :=
  spec_prune_upwards (length path - 1) (del_at doc path) path.

(** The result of [unset] computed from the root downwards: the final key
    is deleted and the path above it pruned. *)
Definition unset_pruned (doc : pyval) (path : list string) : pyval :=
  prune_tree (del_at doc path) (but_last path).

(** ** Properties of runs *)

(** Every reference that pointed to a value in [σ] points to the same value
    in [σ']. *)
Definition preserves (σ σ' : store) : Prop :=
  ∀ r v, deref σ r = Some v → deref σ' r = Some v.

(** The run of [op] from [σ] ends without getting stuck, leaves what [σ]
    held as it was, and what it returns is an object that [σ] did not
    hold. *)
Definition returns_new_document (op : M ref) (σ : store) : Prop :=
  ∃ out σ', op σ = (out, σ')
    ∧ preserves σ σ'
    ∧ out ≠ Stuck
    ∧ ∀ r, out = Ok r → deref σ r = None ∧ is_Some (deref σ' r).




(** A string that ends in a newline. *)
Definition line (s : string) : string := s +:+ String Py.newline "".

(** ** Documents of the scenarios *)

(** [{a: {b: {c: 5}}}] *)
Definition doc_abc : pyval :=
  PyDict {[ "a" := PyDict {[ "b" := PyDict {[ "c" := PyInt 5 ]} ]} ]}.

(** [{a: {b: {c: 5}}, x: "hello"}] *)
Definition doc_abc_x : pyval :=
  PyDict {[ "a" := PyDict {[ "b" := PyDict {[ "c" := PyInt 5 ]} ]};
            "x" := PyStr "hello" ]}.

(** [{a: {b: "hello"}}] *)
Definition doc_ab_str : pyval :=
  PyDict {[ "a" := PyDict {[ "b" := PyStr "hello" ]} ]}.

(** [{a: "xby"}] *)
Definition doc_a_str : pyval := PyDict {[ "a" := PyStr "xby" ]}.

(** [{x: "hello"}] *)
Definition doc_x_str : pyval := PyDict {[ "x" := PyStr "hello" ]}.

(** [{x: {y: [v1, v2]}}] *)
Definition doc_xy_list : pyval :=
  PyDict {[ "x" := PyDict {[ "y" := PyList [PyStr "v1"; PyStr "v2"] ]} ]}.

(** ** Paths that part ways *)

(** [p] and [q] share their first keys and then differ at one. *)
Definition diverge (p q : list string) : Prop :=
  ∃ common k1 r1 k2 r2,
    p = common ++ k1 :: r1 ∧ q = common ++ k2 :: r2 ∧ k1 ≠ k2.

(** ** normalize.py *)

(** [s[:n]] *)
Fixpoint str_take (n : nat) (s : string) {struct s} : string :=
  match s, n with
  | String c s', S n' => String c (str_take n' s')
  | _, _ => EmptyString
  end.

(** [HASH_USERNAME] of config.py, [os.getenv("TLJH_HASH_USERNAME", True)]
    evaluated when the module is imported: the text of the variable, or the
    boolean [True] when it is not set. *)
Definition HASH_USERNAME (env_at_import : option string) : pyval :=
  match env_at_import with
  | Some s => PyStr s
  | None => PyBool true
  end.

Section Normalize.

(** [hashlib.sha256(username.encode("utf-8")).hexdigest()] *)
Variable sha256_hexdigest : string -> string.

(** [generate_system_username(username)]; [env] is the variable
    [TLJH_HASH_USERNAME] at the time of the call.  Only a [str] has a
    method [lower]. *)
Definition generate_system_username (env_at_import env : option string)
    (username : string) : exn + string :=
  let setting := match env with
                 | Some s => PyStr s
                 | None => HASH_USERNAME env_at_import
                 end in
  match setting with
  | PyStr s =>
      if String.eqb (Py.lower s) "true" then
        if (String.length username <? 26)%nat then inr username
        else inr (str_take 26 username +:+ "-"
                  +:+ str_take 5 (sha256_hexdigest username))
      else
        if (String.length username <=? 32)%nat then inr username
        else inr (str_take 32 username)
  | _ => inl AttributeError
  end.

End Normalize.

(** The digest of the 40 letters "abcdefghijklmnopqrstuvwxyzabcdefghijklmn",
    for the examples. *)
Definition sample_digest (_ : string) : string :=
  "78a5851af081d27601cd6494ff68cfd7" +:+ "3562208d47c83b6306ba44b2bd4f6645".

(** ** The command line *)



Section Main.

Variable jsonschema_validate : pyval -> option string.

(** [reload_component], which restarts services and waits for them. *)
Variable reload_component : string -> world -> outcome unit * world.


End Main.

(** ** Reading and writing along a path *)

Lemma get_at_app t p q :
  get_at t (p ++ q) = get_at t p ≫= (fun t' => get_at t' q).
Proof.
  revert t. induction p as [|k p IH]; intros t; simpl; [done|].
  destruct t as [| | | | | |m]; simpl; try done.
  destruct (m !! k); simpl; auto.
Qed.

Lemma get_at_snoc t p k m :
  get_at t p = Some (PyDict m) → get_at t (p ++ [k]) = m !! k.
Proof.
  intros H. rewrite get_at_app, H. simpl. by destruct (m !! k).
Qed.

Lemma get_at_prefix t p q v :
  get_at t (p ++ q) = Some v → ∃ u, get_at t p = Some u ∧ get_at u q = Some v.
Proof.
  rewrite get_at_app. destruct (get_at t p) as [u|]; simpl; [eauto|done].
Qed.

Lemma get_at_cons_dict t k q v :
  get_at t (k :: q) = Some v →
  ∃ m c, t = PyDict m ∧ m !! k = Some c ∧ get_at c q = Some v.
Proof.
  simpl. destruct t as [| | | | | |m]; try done.
  destruct (m !! k) as [c|] eqn:E; [|done]. eauto.
Qed.

Lemma get_put_at t p x :
  is_Some (get_at t p) → get_at (put_at t p x) p = Some x.
Proof.
  revert t. induction p as [|k p IH]; intros t [v Hv]; simpl in *; [done|].
  destruct t as [| | | | | |m]; try done.
  destruct (m !! k) as [c|] eqn:E; [|done].
  rewrite lookup_alter_eq, E. simpl. apply IH. eauto.
Qed.

Lemma put_put_at t p x y : put_at (put_at t p x) p y = put_at t p y.
Proof.
  revert t. induction p as [|k p IH]; intros t; simpl; [done|].
  destruct t as [| | | | | |m]; simpl; try done.
  f_equal. rewrite alter_alter_eq. apply alter_ext. intros c _. simpl. apply IH.
Qed.

Lemma alter_const_insert (m : gmap string pyval) k x :
  is_Some (m !! k) → alter (fun _ => x) k m = <[k := x]> m.
Proof.
  intros [c Hc]. apply map_eq. intros j. destruct (decide (k = j)) as [->|Hne].
  - by rewrite lookup_alter_eq, lookup_insert_eq, Hc.
  - by rewrite lookup_alter_ne, lookup_insert_ne.
Qed.

Lemma put_at_snoc t p k m x :
  get_at t p = Some (PyDict m) → is_Some (m !! k) →
  put_at t (p ++ [k]) x = put_at t p (PyDict (<[k := x]> m)).
Proof.
  revert t. induction p as [|k' p IH]; intros t Hget Hk; simpl in *.
  - injection Hget as ->. f_equal. by apply alter_const_insert.
  - destruct t as [| | | | | |m']; try done.
    destruct (m' !! k') as [c|] eqn:E; [|done].
    f_equal. apply alter_ext. intros c' Hc'. rewrite E in Hc'.
    injection Hc' as <-. by apply IH.
Qed.

Lemma put_at_id t p v : get_at t p = Some v → put_at t p v = t.
Proof.
  revert t. induction p as [|k p IH]; intros t H; simpl in *; [congruence|].
  destruct t as [| | | | | |m]; try done.
  destruct (m !! k) as [c|] eqn:E; [|done].
  f_equal. apply alter_id. intros c' Hc'. rewrite E in Hc'. injection Hc' as <-. by apply IH.
Qed.

(** ** Running the primitives on the copy

    After [deepcopy], the store is [σ ++ [T]]: what was there before the
    call, and the copy [T] at address [length σ]. *)

Lemma lookup_snoc (σ : store) T : (σ ++ [T]) !! length σ = Some T.
Proof. by apply list_lookup_middle. Qed.

Lemma insert_snoc (σ : store) T x : <[length σ := x]> (σ ++ [T]) = σ ++ [x].
Proof.
  replace (length σ) with (length σ + 0)%nat by lia. by rewrite insert_app_r.
Qed.

Lemma bind_ok {A B} (m : M A) (f : A → M B) σ a σ' :
  m σ = (Ok a, σ') → bind m f σ = f a σ'.
Proof. unfold bind. by intros ->. Qed.

Lemma bind_raise {A B} (m : M A) (f : A → M B) σ e σ' :
  m σ = (Raise e, σ') → bind m f σ = (Raise e, σ').
Proof. unfold bind. by intros ->. Qed.

Lemma load_at σ T p v :
  get_at T p = Some v → load (Ref (length σ) p) (σ ++ [T]) = (Ok v, σ ++ [T]).
Proof. intros H. unfold load, deref. simpl. by rewrite lookup_snoc, H. Qed.

Lemma save_at σ T p x :
  save (Ref (length σ) p) x (σ ++ [T]) = (Ok tt, σ ++ [put_at T p x]).
Proof. unfold save. simpl. by rewrite lookup_snoc, insert_snoc. Qed.

Lemma py_in_at σ T p v k :
  get_at T p = Some v →
  py_in k (Ref (length σ) p) (σ ++ [T])
  = (match Py.contains v k with inr b => Ok b | inl e => Raise e end, σ ++ [T]).
Proof.
  intros H. unfold py_in. erewrite bind_ok by by apply load_at.
  by destruct (Py.contains v k).
Qed.

Lemma py_getitem_at σ T p v k :
  get_at T p = Some v →
  py_getitem (Ref (length σ) p) k (σ ++ [T])
  = (match v with
     | PyDict m => match m !! k with
                   | Some _ => Ok (Ref (length σ) (p ++ [k]))
                   | None => Raise (KeyError k)
                   end
     | _ => Raise TypeError
     end, σ ++ [T]).
Proof.
  intros H. unfold py_getitem. erewrite bind_ok by by apply load_at.
  destruct v as [| | | | | |m]; try done. simpl. by destruct (m !! k).
Qed.

Lemma py_setitem_at σ T p v k x :
  get_at T p = Some v →
  py_setitem (Ref (length σ) p) k x (σ ++ [T])
  = match v with
    | PyDict m => (Ok tt, σ ++ [put_at T p (PyDict (<[k := x]> m))])
    | _ => (Raise TypeError, σ ++ [T])
    end.
Proof.
  intros H. unfold py_setitem. erewrite bind_ok by by apply load_at.
  destruct v as [| | | | | |m]; try done. apply save_at.
Qed.

Lemma py_delitem_at σ T p v k :
  get_at T p = Some v →
  py_delitem (Ref (length σ) p) k (σ ++ [T])
  = match v with
    | PyDict m => match m !! k with
                  | Some _ => (Ok tt, σ ++ [put_at T p (PyDict (delete k m))])
                  | None => (Raise (KeyError k), σ ++ [T])
                  end
    | _ => (Raise TypeError, σ ++ [T])
    end.
Proof.
  intros H. unfold py_delitem. erewrite bind_ok by by apply load_at.
  destruct v as [| | | | | |m]; try done. destruct (m !! k); [apply save_at|done].
Qed.

Lemma py_append_at σ T p v x :
  get_at T p = Some v →
  py_append (Ref (length σ) p) x (σ ++ [T])
  = match v with
    | PyList xs => (Ok tt, σ ++ [put_at T p (PyList (xs ++ [x]))])
    | _ => (Raise AttributeError, σ ++ [T])
    end.
Proof.
  intros H. unfold py_append. erewrite bind_ok by by apply load_at.
  destruct v; try done. apply save_at.
Qed.

Lemma py_remove_at σ T p v x :
  get_at T p = Some v →
  py_remove (Ref (length σ) p) x (σ ++ [T])
  = match v with
    | PyList xs => match Py.list_remove xs x with
                   | Some xs' => (Ok tt, σ ++ [put_at T p (PyList xs')])
                   | None => (Raise not_in_list, σ ++ [T])
                   end
    | _ => (Raise AttributeError, σ ++ [T])
    end.
Proof.
  intros H. unfold py_remove. erewrite bind_ok by by apply load_at.
  destruct v; try done. destruct (Py.list_remove _ _); [apply save_at|done].
Qed.

Lemma absent_or_not_is_dict_at σ T p m k :
  get_at T p = Some (PyDict m) →
  absent_or_not _is_dict (Ref (length σ) p) k (σ ++ [T])
  = (Ok (match m !! k with Some (PyDict _) => false | _ => true end), σ ++ [T]).
Proof.
  intros H. unfold absent_or_not, bind. erewrite py_in_at by done. simpl.
  destruct (m !! k) as [c|] eqn:E.
  - rewrite bool_decide_eq_true_2 by eauto. simpl.
    erewrite py_getitem_at by done. cbv beta iota. rewrite E.
    unfold _is_dict, bind. erewrite load_at by (by erewrite get_at_snoc).
    by destruct c.
  - by rewrite bool_decide_eq_false_2 by (by intros [? ?]).
Qed.

(** ** The loops *)

Lemma last_index_middle {A} (seen : list A) x rest :
  (length seen =? length (seen ++ x :: rest) - 1)%nat
  = match rest with [] => true | _ => false end.
Proof.
  rewrite length_app. simpl. destruct rest; simpl.
  - apply Nat.eqb_eq. lia.
  - apply Nat.eqb_neq. lia.
Qed.

Lemma child_dict_lookup (m : gmap string pyval) k :
  (∃ c, m !! k = Some (PyDict c) ∧ child_dict m k = c)
  ∨ (match m !! k with Some (PyDict _) => false | _ => true end = true
     ∧ child_dict m k = ∅).
Proof.
  unfold child_dict. destruct (m !! k) as [[]|]; eauto.
Qed.

Lemma set_item_loop σ pc value rest : ∀ seen T m,
  pc = seen ++ rest →
  get_at T seen = Some (PyDict m) →
  ∃ r, for_enumerate (set_item_step pc value) (length seen) rest
         (Ref (length σ) seen) (σ ++ [T])
       = (Ok r, σ ++ [put_at T seen (PyDict (set_in m rest value))]).
Proof.
  induction rest as [|k rest IH]; intros seen T m Hpc Hget.
  - eexists. simpl. unfold ret. by rewrite put_at_id.
  - assert (Hidx : pc !! length seen = Some k).
    { rewrite Hpc. by apply list_lookup_middle. }
    assert (Hlast : (length seen =? length pc - 1)%nat
                    = match rest with [] => true | _ => false end).
    { rewrite Hpc. apply last_index_middle. }
    cbn [for_enumerate]. unfold bind at 1, set_item_step at 1, bind at 1, py_index.
    rewrite Hidx, Hlast. unfold ret at 1. cbv beta iota.
    destruct rest as [|k2 rest].
    + unfold bind. erewrite py_setitem_at by done. eexists. simpl. done.
    + unfold bind at 1. erewrite absent_or_not_is_dict_at by done. cbv beta iota.
      destruct (child_dict_lookup m k) as [(c & Hc & Hcd)|[Hfresh Hcd]].
      * rewrite Hc. unfold bind at 1, ret at 1. cbv beta iota.
        unfold bind at 1. erewrite py_getitem_at by done. cbv beta iota. rewrite Hc.
        unfold ret at 1. cbv beta iota.
        destruct (IH (seen ++ [k]) T c) as [r Hr].
        { by rewrite <- app_assoc. }
        { by erewrite get_at_snoc. }
        rewrite length_app, Nat.add_1_r in Hr. rewrite Hr. exists r. f_equal. f_equal. f_equal.
        erewrite put_at_snoc by eauto.
        cbn [set_in]. by rewrite Hcd.
      * rewrite Hfresh. unfold bind at 1.
        erewrite py_setitem_at by done. cbv beta iota.
        set (T1 := put_at T seen (PyDict (<[k:=PyDict ∅]> m))).
        assert (HT1 : get_at T1 seen = Some (PyDict (<[k:=PyDict ∅]> m))).
        { apply get_put_at. eauto. }
        unfold bind at 1. erewrite py_getitem_at by done. cbv beta iota.
        rewrite lookup_insert_eq. unfold ret at 1. cbv beta iota.
        destruct (IH (seen ++ [k]) T1 ∅) as [r Hr].
        { by rewrite <- app_assoc. }
        { erewrite get_at_snoc by done. by rewrite lookup_insert_eq. }
        rewrite length_app, Nat.add_1_r in Hr. rewrite Hr. exists r. f_equal. f_equal. f_equal.
        erewrite put_at_snoc; [|done|by rewrite lookup_insert_eq].
        unfold T1. rewrite put_put_at, insert_insert_eq.
        cbn [set_in]. by rewrite Hcd.
Qed.

Lemma split_on_cons sep s : ∃ k ks, Py.split_on sep s = k :: ks.
Proof.
  induction s as [|c s [k [ks IH]]]; simpl; [eauto|].
  destruct (Ascii.eqb c sep); [eauto|]. rewrite IH. eauto.
Qed.

Lemma deepcopy_run σ config t :
  deref σ config = Some t →
  deepcopy config σ = (Ok (Ref (length σ) []), σ ++ [t]).
Proof. intros H. unfold deepcopy, bind, load. by rewrite H. Qed.

Lemma absent_or_not_not_dict check σ T p v k :
  get_at T p = Some v → Py.is_mapping v = false →
  absent_or_not check (Ref (length σ) p) k (σ ++ [T])
  = (match Py.contains v k with
     | inl e => Raise e
     | inr true => Raise TypeError
     | inr false => Ok true
     end, σ ++ [T]).
Proof.
  intros H Hv. unfold absent_or_not, bind. erewrite py_in_at by done.
  destruct (Py.contains v k) as [e|[]]; try done.
  cbn [negb]. cbv beta iota.
  erewrite py_getitem_at by done. by destruct v.
Qed.

Lemma set_item_step_not_dict σ pc value seen k rest T v :
  pc = seen ++ k :: rest → get_at T seen = Some v → Py.is_mapping v = false →
  set_item_step pc value (length seen) k (Ref (length σ) seen) (σ ++ [T])
  = (Raise TypeError, σ ++ [T]).
Proof.
  intros Hpc HT Hv.
  assert (Hidx : pc !! length seen = Some k).
  { rewrite Hpc. by apply list_lookup_middle. }
  assert (Hlast : (length seen =? length pc - 1)%nat
                  = match rest with [] => true | _ => false end).
  { rewrite Hpc. apply last_index_middle. }
  unfold set_item_step, bind at 1, py_index. rewrite Hidx, Hlast.
  unfold ret at 1. cbv beta iota.
  destruct rest as [|k2 rest].
  - unfold bind. erewrite py_setitem_at by done. by destruct v.
  - unfold bind at 1. erewrite absent_or_not_not_dict by done.
    destruct v; try done; simpl Py.contains; cbv beta iota;
      (match goal with |- context [if ?b then _ else _] => destruct b; [done|] end);
      unfold bind; by erewrite py_setitem_at by done.
Qed.

Lemma set_item_in_config_run σ config D property_path value :
  deref σ config = Some D →
  set_item_in_config config property_path value σ
  = match set_tree D (Py.split_on "." property_path) value with
    | inr D' => (Ok (Ref (length σ) []), σ ++ [D'])
    | inl e => (Raise e, σ ++ [D])
    end.
Proof.
  intros HD. unfold set_item_in_config.
  destruct (split_on_cons "." property_path) as (k & ks & Hks). rewrite Hks.
  cbv zeta. erewrite bind_ok by by apply deepcopy_run.
  destruct (Py.is_mapping D) eqn:HDm.
  - destruct D as [| | | | | |m]; try done.
    destruct (set_item_loop σ (k :: ks) value (k :: ks) [] (PyDict m) m) as [r Hr]; [done..|].
    simpl length in Hr. erewrite bind_ok by exact Hr. done.
  - cbn [for_enumerate].
    erewrite bind_raise; [by destruct D|].
    erewrite bind_raise; [done|].
    by apply (set_item_step_not_dict σ (k :: ks) value [] k ks D D).
Qed.

Lemma last_index_eq {A} (pc seen : list A) x rest :
  pc = seen ++ x :: rest →
  (length seen =? length pc - 1)%nat = match rest with [] => true | _ => false end.
Proof. intros ->. apply last_index_middle. Qed.

Lemma absent_or_not_is_list_at σ T p m k :
  get_at T p = Some (PyDict m) →
  absent_or_not _is_list (Ref (length σ) p) k (σ ++ [T])
  = (Ok (match m !! k with
         | Some (PyList _) | Some (PyStr _) => false
         | _ => true
         end), σ ++ [T]).
Proof.
  intros H. unfold absent_or_not, bind. erewrite py_in_at by done. simpl.
  destruct (m !! k) as [c|] eqn:E.
  - rewrite bool_decide_eq_true_2 by eauto. simpl.
    erewrite py_getitem_at by done. cbv beta iota. rewrite E.
    unfold _is_list, bind. erewrite load_at by (by erewrite get_at_snoc).
    by destruct c.
  - by rewrite bool_decide_eq_false_2 by (by intros [? ?]).
Qed.

(** The step both [set_item_in_config] and [add_item_to_config] take at a
    key that is not the last: make sure a mapping is there, and enter it. *)
Lemma descend_run σ T seen m k :
  get_at T seen = Some (PyDict m) →
  let T1 := put_at T seen (PyDict (<[k := PyDict (child_dict m k)]> m)) in
  (fresh <- absent_or_not _is_dict (Ref (length σ) seen) k ;;
   (if fresh : bool then py_setitem (Ref (length σ) seen) k (PyDict ∅) else ret tt) ;;
   next <- py_getitem (Ref (length σ) seen) k ;;
   ret (Continue, next)) (σ ++ [T])
  = (Ok (Continue, Ref (length σ) (seen ++ [k])), σ ++ [T1])
  ∧ get_at T1 seen = Some (PyDict (<[k := PyDict (child_dict m k)]> m))
  ∧ get_at T1 (seen ++ [k]) = Some (PyDict (child_dict m k)).
Proof.
  intros Hget T1.
  assert (H1 : get_at T1 seen = Some (PyDict (<[k := PyDict (child_dict m k)]> m))).
  { apply get_put_at. eauto. }
  split; [|split; [done|]].
  2:{ erewrite get_at_snoc by done. by rewrite lookup_insert_eq. }
  unfold bind at 1. erewrite absent_or_not_is_dict_at by done. cbv beta iota.
  destruct (child_dict_lookup m k) as [(c & Hc & Hcd)|[Hfresh Hcd]].
  - assert (T1 = T) as HT.
    { unfold T1. rewrite Hcd, insert_id by done. by apply put_at_id. }
    rewrite HT, Hc. unfold bind at 1, ret at 1. cbv beta iota.
    unfold bind. erewrite py_getitem_at by done. cbv beta iota. by rewrite Hc.
  - subst T1. rewrite Hcd in *.
    rewrite Hfresh. unfold bind at 1. erewrite py_setitem_at by done. cbv beta iota.
    unfold bind. erewrite py_getitem_at by done. cbv beta iota.
    by rewrite lookup_insert_eq.
Qed.

Lemma add_final_cases (m : gmap string pyval) k value :
  (∃ xs, m !! k = Some (PyList xs))
  ∨ (∃ s, m !! k = Some (PyStr s))
  ∨ (match m !! k with
     | Some (PyList _) | Some (PyStr _) => false
     | _ => true
     end = true
     ∧ add_in m [k] value = (None, <[k := PyList [value]]> m)).
Proof. cbn [add_in]. destruct (m !! k) as [[]|]; eauto. Qed.

(** The step of [add_item_to_config] at the last key. *)
Lemma add_item_final_run σ T seen m k value :
  get_at T seen = Some (PyDict m) →
  (fresh <- absent_or_not _is_list (Ref (length σ) seen) k ;;
   (if fresh : bool then py_setitem (Ref (length σ) seen) k (PyList []) else ret tt) ;;
   next <- py_getitem (Ref (length σ) seen) k ;;
   py_append next value ;;
   ret (Continue, next)) (σ ++ [T])
  = (match (add_in m [k] value).1 with
     | None => Ok (Continue, Ref (length σ) (seen ++ [k]))
     | Some e => Raise e
     end, σ ++ [put_at T seen (PyDict (add_in m [k] value).2)]).
Proof.
  intros Hget. unfold bind at 1. erewrite absent_or_not_is_list_at by done.
  cbv beta iota.
  destruct (add_final_cases m k value) as [[xs E]|[[s E]|[Hfresh Hadd]]].
  - (* a list: append to it *)
    cbn [add_in]. rewrite E. unfold bind at 1, ret at 1. cbv beta iota.
    unfold bind at 1. erewrite py_getitem_at by done. cbv beta iota. rewrite E.
    unfold bind at 1.
    erewrite py_append_at; [|erewrite get_at_snoc by done; exact E].
    simpl. unfold ret. erewrite put_at_snoc; eauto.
  - (* a string: no list is created, and [append] fails *)
    cbn [add_in]. rewrite E. unfold bind at 1, ret at 1. cbv beta iota.
    unfold bind at 1. erewrite py_getitem_at by done. cbv beta iota. rewrite E.
    unfold bind at 1.
    erewrite py_append_at; [|erewrite get_at_snoc by done; exact E].
    simpl. by rewrite put_at_id.
  - (* anything else, or nothing: a new list *)
    rewrite Hfresh, Hadd. unfold bind at 1.
    erewrite py_setitem_at by done. cbv beta iota.
    set (T1 := put_at T seen (PyDict (<[k:=PyList []]> m))).
    assert (HT1 : get_at T1 seen = Some (PyDict (<[k:=PyList []]> m))).
    { apply get_put_at. eauto. }
    unfold bind at 1. erewrite py_getitem_at by done. cbv beta iota.
    rewrite lookup_insert_eq. unfold bind at 1.
    erewrite py_append_at; [|erewrite get_at_snoc by done; by rewrite lookup_insert_eq].
    simpl. unfold ret.
    erewrite put_at_snoc; [|done|by rewrite lookup_insert_eq].
    unfold T1. by rewrite put_put_at, insert_insert_eq.
Qed.

Lemma add_in_descend m k a q value :
  add_in m (k :: a :: q) value
  = ((add_in (child_dict m k) (a :: q) value).1,
     <[k := PyDict (add_in (child_dict m k) (a :: q) value).2]> m).
Proof. done. Qed.

Lemma add_item_loop σ pc value rest : ∀ seen T m,
  pc = seen ++ rest →
  get_at T seen = Some (PyDict m) →
  ∃ o, for_enumerate (add_item_step pc value) (length seen) rest
         (Ref (length σ) seen) (σ ++ [T])
       = (o, σ ++ [put_at T seen (PyDict (add_in m rest value).2)])
     ∧ match (add_in m rest value).1 with
       | None => ∃ r, o = Ok r
       | Some e => o = Raise e
       end.
Proof.
  induction rest as [|k rest IH]; intros seen T m Hpc Hget.
  - eexists. simpl. unfold ret. rewrite put_at_id by done. eauto.
  - cbn [for_enumerate]. unfold bind at 1, add_item_step at 1.
    rewrite (last_index_eq _ _ _ _ Hpc).
    destruct rest as [|k2 rest].
    + erewrite add_item_final_run by done.
      destruct (add_in m [k] value).1; eexists; split; eauto.
    + destruct (descend_run σ T seen m k Hget) as (Hrun & HT1 & HT1k).
      rewrite Hrun. cbv beta iota.
      destruct (IH (seen ++ [k]) _ _ ltac:(by rewrite <- app_assoc) HT1k)
        as (o & Ho & Hres).
      rewrite length_app, Nat.add_1_r in Ho. rewrite Ho, add_in_descend.
      exists o. split; [|done]. cbn [snd].
      erewrite put_at_snoc; [|done|by rewrite lookup_insert_eq].
      by rewrite put_put_at, insert_insert_eq.
Qed.

Lemma contains_not_dict_error v k e :
  Py.contains v k = inl e → e = TypeError.
Proof. destruct v; simpl; congruence. Qed.

Lemma add_item_step_not_dict σ pc value seen k rest T v :
  pc = seen ++ k :: rest → get_at T seen = Some v → Py.is_mapping v = false →
  add_item_step pc value (length seen) k (Ref (length σ) seen) (σ ++ [T])
  = (Raise TypeError, σ ++ [T]).
Proof.
  intros Hpc HT Hv. unfold add_item_step. rewrite (last_index_eq _ _ _ _ Hpc).
  destruct rest as [|k2 rest];
    unfold bind at 1; erewrite absent_or_not_not_dict by done;
    (destruct (Py.contains v k) as [e|[]] eqn:E; cbv beta iota;
     [by rewrite (contains_not_dict_error _ _ _ E)|done|]);
    unfold bind; erewrite py_setitem_at by done; by destruct v.
Qed.

Lemma add_item_to_config_run σ config D property_path value :
  deref σ config = Some D →
  let r := add_tree D (Py.split_on "." property_path) value in
  add_item_to_config config property_path value σ
  = (match r.1 with
     | None => Ok (Ref (length σ) [])
     | Some e => Raise e
     end, σ ++ [r.2]).
Proof.
  intros HD. unfold add_item_to_config.
  destruct (split_on_cons "." property_path) as (k & ks & Hks). rewrite Hks.
  cbv zeta. erewrite bind_ok by by apply deepcopy_run.
  destruct (Py.is_mapping D) eqn:HDm.
  - destruct D as [| | | | | |m]; try done.
    destruct (add_item_loop σ (k :: ks) value (k :: ks) [] (PyDict m) m)
      as (o & Ho & Hres); [done..|].
    simpl length in Ho. unfold bind. rewrite Ho. cbn [put_at add_tree fst snd].
    destruct (add_in m (k :: ks) value).1.
    + by subst o.
    + by destruct Hres as [r ->].
  - assert (add_tree D (k :: ks) value = (Some TypeError, D)) as ->
      by by destruct D.
    cbn [for_enumerate fst snd].
    erewrite bind_raise; [done|].
    erewrite bind_raise; [done|].
    by apply (add_item_step_not_dict σ (k :: ks) value [] k ks D D).
Qed.

Lemma remove_in_descend m k k2 rest value pp :
  remove_in m (k :: k2 :: rest) value pp
  = match m !! k with
    | Some (PyDict c) =>
        match remove_in c (k2 :: rest) value pp with
        | inr c' => inr (<[k := PyDict c']> m)
        | inl e => inl e
        end
    | _ => inl (does_not_exist pp)
    end.
Proof. done. Qed.

Lemma remove_item_loop σ pc pp value rest : ∀ seen T m,
  pc = seen ++ rest →
  get_at T seen = Some (PyDict m) →
  ∃ r, for_enumerate (remove_item_step pp pc value) (length seen) rest
         (Ref (length σ) seen) (σ ++ [T])
       = match remove_in m rest value pp with
         | inr m' => (Ok r, σ ++ [put_at T seen (PyDict m')])
         | inl e => (Raise e, σ ++ [T])
         end.
Proof.
  induction rest as [|k rest IH]; intros seen T m Hpc Hget.
  - eexists. simpl. unfold ret. by rewrite put_at_id.
  - cbn [for_enumerate]. unfold bind at 1, remove_item_step at 1.
    rewrite (last_index_eq _ _ _ _ Hpc).
    destruct rest as [|k2 rest].
    + unfold bind at 1. erewrite absent_or_not_is_list_at by done. cbv beta iota.
      cbn [remove_in].
      destruct (m !! k) as [c|] eqn:E; [destruct c|]; cbv beta iota;
        try (by exists (Ref 0 [])).
      * unfold bind at 1. erewrite py_getitem_at by done. cbv beta iota. rewrite E.
        unfold bind at 1.
        erewrite py_remove_at; [|erewrite get_at_snoc by done; exact E].
        by exists (Ref 0 []).
      * unfold bind at 1. erewrite py_getitem_at by done. cbv beta iota. rewrite E.
        unfold bind at 1.
        erewrite py_remove_at; [|erewrite get_at_snoc by done; exact E].
        cbv beta iota. eexists.
        destruct (Py.list_remove items value) as [items'|]; [|done].
        simpl. unfold ret. f_equal. f_equal. f_equal.
        erewrite put_at_snoc; eauto.
    + unfold bind at 1. erewrite absent_or_not_is_dict_at by done. cbv beta iota.
      rewrite remove_in_descend.
      destruct (m !! k) as [c|] eqn:E; [destruct c as [| | | | | |mc]|]; cbv beta iota;
        try (by exists (Ref 0 [])).
      unfold bind at 1. erewrite py_getitem_at by done. cbv beta iota. rewrite E.
      unfold ret at 1. cbv beta iota.
      destruct (IH (seen ++ [k]) T mc) as [r Hr].
      { by rewrite <- app_assoc. }
      { by erewrite get_at_snoc. }
      rewrite length_app, Nat.add_1_r in Hr. rewrite Hr. exists r.
      destruct (remove_in mc (k2 :: rest) value pp) as [e|mc']; [done|].
      f_equal. f_equal. f_equal. erewrite put_at_snoc; eauto.
Qed.

Lemma remove_item_step_not_dict σ pc pp value seen k rest T v :
  pc = seen ++ k :: rest → get_at T seen = Some v → Py.is_mapping v = false →
  remove_item_step pp pc value (length seen) k (Ref (length σ) seen) (σ ++ [T])
  = (Raise (not_a_dict_error v k
              (match rest with
               | [] => is_not_a_list pp
               | _ :: _ => does_not_exist pp
               end)), σ ++ [T]).
Proof.
  intros Hpc HT Hv. unfold remove_item_step. rewrite (last_index_eq _ _ _ _ Hpc).
  unfold not_a_dict_error.
  destruct rest as [|k2 rest];
    unfold bind at 1; erewrite absent_or_not_not_dict by done;
    by destruct (Py.contains v k) as [e|[]].
Qed.

Lemma remove_item_from_config_run σ config D property_path value :
  deref σ config = Some D →
  remove_item_from_config config property_path value σ
  = match remove_tree D (Py.split_on "." property_path) value property_path with
    | inr D' => (Ok (Ref (length σ) []), σ ++ [D'])
    | inl e => (Raise e, σ ++ [D])
    end.
Proof.
  intros HD. unfold remove_item_from_config.
  destruct (split_on_cons "." property_path) as (k & ks & Hks). rewrite Hks.
  cbv zeta. erewrite bind_ok by by apply deepcopy_run.
  destruct (Py.is_mapping D) eqn:HDm.
  - destruct D as [| | | | | |m]; try done.
    destruct (remove_item_loop σ (k :: ks) property_path value (k :: ks) []
                (PyDict m) m) as [r Hr]; [done..|].
    simpl length in Hr. unfold bind. rewrite Hr. cbn [remove_tree put_at].
    by destruct (remove_in m (k :: ks) value property_path).
  - cbn [for_enumerate].
    erewrite bind_raise; [by destruct D|].
    erewrite bind_raise; [done|].
    by apply (remove_item_step_not_dict σ (k :: ks) property_path value [] k ks D D).
Qed.

(** ** Pruning *)

Lemma equal_dict_empty m : Py.equal (PyDict m) (PyDict ∅) = bool_decide (m = ∅).
Proof.
  cbn [Py.equal]. rewrite map_size_empty.
  destruct (decide (m = ∅)) as [->|Hne].
  - by rewrite map_size_empty, map_fold_empty, bool_decide_eq_true_2.
  - rewrite bool_decide_eq_false_2 by done.
    assert (size m ≠ 0%nat) as Hs by by rewrite map_size_empty_iff.
    apply Nat.eqb_neq in Hs. by rewrite Hs.
Qed.

Lemma equal_empty_dict v : Py.equal v (PyDict ∅) = true ↔ v = PyDict ∅.
Proof.
  destruct v as [| | | | | |m]; try (split; [by simpl|done]).
  rewrite equal_dict_empty, bool_decide_eq_true. split; congruence.
Qed.

Lemma del_at_snoc t p k m :
  get_at t p = Some (PyDict m) → del_at t (p ++ [k]) = put_at t p (PyDict (delete k m)).
Proof.
  revert t. induction p as [|k' p IH]; intros t Hget; simpl in *.
  - by injection Hget as ->.
  - destruct t as [| | | | | |m']; try done.
    destruct (m' !! k') as [c|] eqn:E; [|done].
    assert (∃ a q, p ++ [k] = a :: q) as (a & q & Hq) by (destruct p; simpl; eauto).
    rewrite Hq. rewrite <- Hq. f_equal. apply alter_ext. intros c' Hc'.
    rewrite E in Hc'. injection Hc' as <-. by apply IH.
Qed.

Lemma prune_upto_S n t path :
  prune_upto (S n) t path
  = match get_at t (take (S n) path) with
    | Some v => if Py.equal v (PyDict ∅)
                then prune_upto n (del_at t (take (S n) path)) path
                else t
    | None => t
    end.
Proof. done. Qed.

Lemma remove_empty_configs_upto_S n configuration path :
  remove_empty_configs_upto (S n) configuration path
  = (for_enumerate
       (remove_empty_step (remove_empty_configs_upto n configuration path))
       0 (take (S n) path) configuration ;;
     ret tt).
Proof. done. Qed.

Lemma remove_empty_loop σ path n
    (IHn : ∀ T m, get_at T (take n path) = Some (PyDict m) →
       remove_empty_configs_upto n (Ref (length σ) []) path (σ ++ [T])
       = (Ok tt, σ ++ [prune_upto n T path])) :
  ∀ rest seen T m i,
    take (S n) path = seen ++ rest → rest ≠ [] →
    length (take (S n) path) = S n →
    get_at T (take (S n) path) = Some (PyDict m) →
    ∃ r, for_enumerate
           (remove_empty_step (remove_empty_configs_upto n (Ref (length σ) []) path))
           i rest (Ref (length σ) seen) (σ ++ [T])
         = (Ok r, σ ++ [prune_upto (S n) T path]).
Proof.
  induction rest as [|k rest IH]; intros seen T m i Hsplit Hne Hlen Hget; [done|].
  rewrite Hsplit in Hget.
  destruct (get_at_prefix _ _ _ _ Hget) as (u & Hseen & Hu).
  destruct (get_at_cons_dict _ _ _ _ Hu) as (parent & c & -> & Hk & Hc).
  cbn [for_enumerate]. unfold bind at 1, remove_empty_step at 1.
  unfold bind at 1. erewrite py_getitem_at by done. cbv beta iota. rewrite Hk.
  unfold bind at 1, py_eq_empty_dict, bind at 1.
  erewrite load_at by (by erewrite get_at_snoc). cbv beta iota.
  unfold ret at 1. cbv beta iota.
  destruct rest as [|k2 rest].
  - (* the last key of the path: the node that may have become empty *)
    simpl in Hc. injection Hc as ->.
    assert (Hseen_n : seen = take n path).
    { rewrite <- (take_app_length seen [k]), <- Hsplit, take_take.
      rewrite Hsplit, length_app in Hlen. simpl in Hlen.
      replace (length seen) with n by lia. f_equal. lia. }
    rewrite prune_upto_S, Hsplit, Hget.
    destruct (Py.equal (PyDict m) (PyDict ∅)).
    + unfold bind at 1. erewrite py_delitem_at by done. cbv beta iota. rewrite Hk.
      unfold bind at 1. erewrite del_at_snoc by done.
      erewrite IHn; [|rewrite <- Hseen_n; apply get_put_at; eauto].
      eexists. done.
    + unfold bind at 1. erewrite py_getitem_at by done. cbv beta iota. rewrite Hk.
      eexists. done.
  - (* further up: the node holds the next key, so it is not empty *)
    destruct (get_at_cons_dict _ _ _ _ Hc) as (mc & c2 & -> & Hk2 & _).
    rewrite equal_dict_empty, bool_decide_eq_false_2.
    2:{ intros ->. by rewrite lookup_empty in Hk2. }
    unfold bind at 1. erewrite py_getitem_at by done. cbv beta iota. rewrite Hk.
    unfold ret at 1. cbv beta iota.
    apply (IH (seen ++ [k]) T m); [by rewrite <- app_assoc|done|done|].
    by rewrite Hsplit.
Qed.

Lemma remove_empty_configs_upto_run σ path n : ∀ T m,
  (n ≤ length path)%nat →
  get_at T (take n path) = Some (PyDict m) →
  remove_empty_configs_upto n (Ref (length σ) []) path (σ ++ [T])
  = (Ok tt, σ ++ [prune_upto n T path]).
Proof.
  induction n as [|n IHn]; intros T m Hn Hget; [done|].
  rewrite remove_empty_configs_upto_S.
  assert (Hlen : length (take (S n) path) = S n) by by apply length_take_le.
  destruct (remove_empty_loop σ path n
              (fun T m H => IHn T m ltac:(lia) H)
              (take (S n) path) [] T m 0%nat) as [r Hr]; try done.
  { intros E. by rewrite E in Hlen. }
  unfold bind. by rewrite Hr.
Qed.

Lemma but_last_snoc {A} (l : list A) x : but_last (l ++ [x]) = l.
Proof.
  unfold but_last. rewrite length_app. simpl.
  replace (length l + 1 - 1)%nat with (length l) by lia. apply take_app_length.
Qed.

Lemma but_last_length {A} (l : list A) : length (but_last l) = (length l - 1)%nat.
Proof. unfold but_last. rewrite length_take. lia. Qed.

Lemma unset_del_descend t k k2 rest pp :
  unset_del t (k :: k2 :: rest) pp
  = match t with
    | PyDict m =>
        match m !! k with
        | Some c =>
            match unset_del c (k2 :: rest) pp with
            | inr c' => inr (PyDict (<[k := c']> m))
            | inl e => inl e
            end
        | None => inl (does_not_exist pp)
        end
    | _ => inl (not_a_dict_error t k (does_not_exist pp))
    end.
Proof. done. Qed.

Lemma unset_item_step_not_dict σ pc pp seen k rest T v :
  pc = seen ++ k :: rest → get_at T seen = Some v → Py.is_mapping v = false →
  unset_item_step (Ref (length σ) []) pp pc (length seen) k
    (Ref (length σ) seen) (σ ++ [T])
  = (Raise (not_a_dict_error v k (does_not_exist pp)), σ ++ [T]).
Proof.
  intros Hpc HT Hv. unfold unset_item_step. rewrite (last_index_eq _ _ _ _ Hpc).
  unfold not_a_dict_error.
  destruct rest as [|k2 rest];
    unfold bind at 1; erewrite py_in_at by done;
    (destruct (Py.contains v k) as [e|[]]; cbv beta iota; cbn [negb];
     [done| |done]); unfold bind.
  - erewrite py_delitem_at by done. by destruct v.
  - erewrite py_getitem_at by done. by destruct v.
Qed.

Lemma unset_item_loop σ pc pp rest : ∀ seen T t,
  pc = seen ++ rest → rest ≠ [] →
  get_at T seen = Some t →
  ∃ r, for_enumerate (unset_item_step (Ref (length σ) []) pp pc) (length seen) rest
         (Ref (length σ) seen) (σ ++ [T])
       = match unset_del t rest pp with
         | inr t' =>
             (Ok r, σ ++ [prune_upto (length pc - 1) (put_at T seen t') (but_last pc)])
         | inl e => (Raise e, σ ++ [T])
         end.
Proof.
  induction rest as [|k rest IH]; intros seen T t Hpc Hne Hget; [done|].
  cbn [for_enumerate].
  destruct (Py.is_mapping t) eqn:Ht.
  2:{ exists (Ref 0 []). erewrite bind_raise by by eapply unset_item_step_not_dict.
      destruct rest; [cbn [unset_del]|rewrite unset_del_descend]; by destruct t. }
  destruct t as [| | | | | |m]; try done.
  unfold bind at 1, unset_item_step at 1.
  rewrite (last_index_eq _ _ _ _ Hpc).
  destruct rest as [|k2 rest].
  - unfold bind at 1. erewrite py_in_at by done. cbn [Py.contains unset_del].
    destruct (m !! k) as [c|] eqn:E.
    2:{ rewrite bool_decide_eq_false_2 by (by intros [? ?]). by exists (Ref 0 []). }
    rewrite bool_decide_eq_true_2 by eauto. cbn [negb]. cbv beta iota.
    unfold bind at 1. erewrite py_delitem_at by done. cbv beta iota. rewrite E.
    unfold bind at 1, remove_empty_configs.
    assert (Hbl : but_last pc = seen) by (rewrite Hpc; apply but_last_snoc).
    erewrite remove_empty_configs_upto_run; [|done|].
    2:{ rewrite take_ge by done. rewrite Hbl. apply get_put_at. eauto. }
    eexists. cbv beta iota. unfold ret. by rewrite but_last_length.
  - unfold bind at 1. erewrite py_in_at by done. cbn [Py.contains].
    rewrite unset_del_descend.
    destruct (m !! k) as [c|] eqn:E.
    2:{ rewrite bool_decide_eq_false_2 by (by intros [? ?]). by exists (Ref 0 []). }
    rewrite bool_decide_eq_true_2 by eauto. cbn [negb]. cbv beta iota.
    unfold bind at 1. erewrite py_getitem_at by done. cbv beta iota. rewrite E.
    unfold ret at 1. cbv beta iota.
    destruct (IH (seen ++ [k]) T c) as [r Hr].
    { by rewrite <- app_assoc. }
    { done. }
    { by erewrite get_at_snoc. }
    rewrite length_app, Nat.add_1_r in Hr. rewrite Hr. exists r.
    destruct (unset_del c (k2 :: rest) pp) as [e|c']; [done|].
    f_equal. f_equal. f_equal. f_equal. erewrite put_at_snoc; eauto.
Qed.

Lemma unset_item_from_config_run σ config D property_path :
  deref σ config = Some D →
  unset_item_from_config config property_path σ
  = match unset_tree D (Py.split_on "." property_path) property_path with
    | inr D' => (Ok (Ref (length σ) []), σ ++ [D'])
    | inl e => (Raise e, σ ++ [D])
    end.
Proof.
  intros HD. unfold unset_item_from_config.
  destruct (split_on_cons "." property_path) as (k & ks & Hks). rewrite Hks.
  cbv zeta. erewrite bind_ok by by apply deepcopy_run.
  destruct (unset_item_loop σ (k :: ks) property_path (k :: ks) [] D D)
    as [r Hr]; [done..|].
  simpl length in Hr. unfold bind. rewrite Hr. unfold unset_tree.
  destruct (unset_del D (k :: ks) property_path); [done|].
  simpl. by rewrite Nat.sub_0_r.
Qed.

(** ** Pruning from the root downwards *)

Lemma chain_not_empty c q v :
  get_at c q = Some v → Py.equal v (PyDict ∅) = false →
  Py.equal c (PyDict ∅) = false.
Proof.
  destruct q as [|k q]; simpl.
  - by intros [= ->].
  - destruct c as [| | | | | |m]; try done.
    destruct (m !! k) eqn:E; [|done]. intros _ _.
    rewrite equal_dict_empty. apply bool_decide_eq_false_2.
    intros ->. by rewrite lookup_empty in E.
Qed.

Lemma prune_tree_id t q v :
  get_at t q = Some v → Py.equal v (PyDict ∅) = false → prune_tree t q = t.
Proof.
  revert t. induction q as [|k q IH]; intros t Hget Hv; [done|].
  destruct (get_at_cons_dict _ _ _ _ Hget) as (m & c & -> & Hk & Hc).
  cbn [prune_tree]. rewrite Hk. rewrite (IH c) by done.
  rewrite (chain_not_empty c q v) by done. by rewrite insert_id.
Qed.

Lemma del_at_cons m k a q :
  del_at (PyDict m) (k :: a :: q) = PyDict (alter (fun c => del_at c (a :: q)) k m).
Proof. done. Qed.

Lemma prune_tree_empty_last t q k :
  get_at t (q ++ [k]) = Some (PyDict ∅) →
  prune_tree t (q ++ [k]) = prune_tree (del_at t (q ++ [k])) q.
Proof.
  revert t. induction q as [|k1 q IH]; intros t Hget.
  - destruct (get_at_cons_dict _ _ _ _ Hget) as (m & c & -> & Hk & [= ->]).
    simpl. rewrite Hk. by rewrite equal_dict_empty, bool_decide_eq_true_2.
  - simpl app in *.
    destruct (get_at_cons_dict _ _ _ _ Hget) as (m & c & -> & Hk & Hc).
    assert (∃ a q', q ++ [k] = a :: q') as (a & q' & Hq) by (destruct q; simpl; eauto).
    rewrite Hq, del_at_cons, <- Hq.
    cbn [prune_tree]. rewrite Hk, lookup_alter_eq, Hk. simpl.
    rewrite (IH c) by done.
    destruct (Py.equal _ _).
    + by rewrite delete_alter_eq.
    + by rewrite insert_alter_eq.
Qed.

Lemma prune_upto_spec n t path :
  prune_upto n t path = spec_prune_upwards n t path.
Proof.
  revert t. induction n as [|n IH]; intros t; [done|].
  rewrite prune_upto_S. cbn [spec_prune_upwards].
  destruct (get_at t (take (S n) path)) as [v|]; [|done].
  destruct v as [| | | | | |m]; try done.
  rewrite equal_dict_empty. by rewrite IH.
Qed.

Lemma prune_upto_tree n : ∀ t path m,
  (n ≤ length path)%nat →
  get_at t (take n path) = Some (PyDict m) →
  prune_upto n t path = prune_tree t (take n path).
Proof.
  induction n as [|n IH]; intros t path m Hn Hget; [done|].
  rewrite prune_upto_S, Hget.
  destruct (lookup_lt_is_Some_2 path n ltac:(lia)) as [k Hk].
  rewrite (take_S_r _ _ _ Hk) in *.
  destruct (get_at_prefix _ _ _ _ Hget) as (u & Hq & Hu).
  destruct (get_at_cons_dict _ _ _ _ Hu) as (parent & c & -> & Hpk & [= ->]).
  destruct (Py.equal (PyDict m) (PyDict ∅)) eqn:E.
  - apply equal_empty_dict in E. injection E as ->.
    rewrite prune_tree_empty_last by done.
    eapply IH; [lia|]. erewrite del_at_snoc by done. apply get_put_at. eauto.
  - symmetry. by eapply prune_tree_id.
Qed.

Lemma but_last_cons {A} (x y : A) l : but_last (x :: y :: l) = x :: but_last (y :: l).
Proof. unfold but_last. simpl. by rewrite Nat.sub_0_r. Qed.

Lemma get_at_del_at_parent t q k v :
  get_at t (q ++ [k]) = Some v →
  ∃ m, get_at (del_at t (q ++ [k])) q = Some (PyDict m).
Proof.
  intros Hget. destruct (get_at_prefix _ _ _ _ Hget) as (u & Hq & Hu).
  destruct (get_at_cons_dict _ _ _ _ Hu) as (parent & c & -> & Hpk & _).
  erewrite del_at_snoc by done. eexists. apply get_put_at. eauto.
Qed.

Lemma snoc_cases {A} (l : list A) : l = [] ∨ ∃ q k, l = q ++ [k].
Proof.
  destruct l as [|x l] using rev_ind; eauto.
Qed.

(** The upward walk of the specification and the downward recursion give
    the same document. *)
Lemma spec_unset_pruned doc path leaf :
  get_at doc path = Some leaf → spec_unset doc path = unset_pruned doc path.
Proof.
  intros Hget. unfold spec_unset, unset_pruned.
  destruct (snoc_cases path) as [->|(q & k & ->)]; [done|].
  rewrite <- prune_upto_spec.
  destruct (get_at_del_at_parent _ _ _ _ Hget) as [m Hm].
  rewrite but_last_snoc.
  assert (Hlen : (length (q ++ [k]) - 1)%nat = length q).
  { rewrite length_app. simpl. lia. }
  rewrite Hlen.
  erewrite prune_upto_tree.
  - by rewrite take_app_length.
  - rewrite length_app. lia.
  - rewrite take_app_length. exact Hm.
Qed.

Lemma unset_pruned_single m k :
  unset_pruned (PyDict m) [k] = PyDict (delete k m).
Proof. done. Qed.

Lemma unset_pruned_cons m k c a q :
  m !! k = Some c →
  unset_pruned (PyDict m) (k :: a :: q)
  = let c' := unset_pruned c (a :: q) in
    if Py.equal c' (PyDict ∅) then PyDict (delete k m)
    else PyDict (<[k := c']> m).
Proof.
  intros Hk. unfold unset_pruned. rewrite but_last_cons, del_at_cons.
  cbn [prune_tree]. rewrite lookup_alter_eq, Hk. simpl.
  destruct (Py.equal _ _).
  - by rewrite delete_alter_eq.
  - by rewrite insert_alter_eq.
Qed.

Lemma unset_del_resolved t ks leaf pp :
  ks ≠ [] → get_at t ks = Some leaf → unset_del t ks pp = inr (del_at t ks).
Proof.
  revert t. induction ks as [|k ks IH]; intros t Hne Hget; [done|].
  destruct (get_at_cons_dict _ _ _ _ Hget) as (m & c & -> & Hk & Hc).
  destruct ks as [|a q].
  - simpl. by rewrite Hk.
  - rewrite unset_del_descend, del_at_cons, Hk, (IH c) by done.
    f_equal. f_equal. apply map_eq. intros j.
    destruct (decide (k = j)) as [->|Hj].
    + by rewrite lookup_insert_eq, lookup_alter_eq, Hk.
    + by rewrite lookup_insert_ne, lookup_alter_ne.
Qed.

Lemma prune_upto_but_last n t ks :
  (n ≤ length ks - 1)%nat → prune_upto n t (but_last ks) = prune_upto n t ks.
Proof.
  revert t. induction n as [|n IH]; intros t Hn; [done|].
  assert (Htake : take (S n) (but_last ks) = take (S n) ks).
  { unfold but_last. rewrite take_take. f_equal. lia. }
  rewrite !prune_upto_S, Htake.
  destruct (get_at t (take (S n) ks)); [|done].
  destruct (Py.equal _ _); [|done]. apply IH. lia.
Qed.

Lemma unset_tree_resolved t ks leaf pp :
  ks ≠ [] → get_at t ks = Some leaf → unset_tree t ks pp = inr (spec_unset t ks).
Proof.
  intros Hne Hget. unfold unset_tree, spec_unset.
  erewrite unset_del_resolved by done.
  by rewrite prune_upto_but_last, prune_upto_spec.
Qed.

(** ** C1: unset prunes the emptied ancestors *)

Lemma prefix_cons_inv {A} (q : list A) k rest :
  q ≠ [] → q `prefix_of` k :: rest → ∃ q', q = k :: q' ∧ q' `prefix_of` rest.
Proof.
  intros Hne [x Hx]. destruct q as [|k' q']; [done|].
  simpl in Hx. injection Hx as <- ->. exists q'. split; [done|]. by exists x.
Qed.

Lemma unset_pruned_final_gone doc path leaf :
  path ≠ [] → get_at doc path = Some leaf → get_at (unset_pruned doc path) path = None.
Proof.
  revert doc. induction path as [|k [|a q] IH]; intros doc Hne Hget; [done|..];
    destruct (get_at_cons_dict _ _ _ _ Hget) as (m & c & -> & Hk & Hc).
  - rewrite unset_pruned_single. simpl. by rewrite lookup_delete_eq.
  - rewrite (unset_pruned_cons _ _ _ _ _ Hk). cbv zeta.
    destruct (Py.equal _ _); cbn [get_at].
    + by rewrite lookup_delete_eq.
    + rewrite lookup_insert_eq. by apply IH.
Qed.

Lemma unset_pruned_no_empty doc path leaf :
  get_at doc path = Some leaf →
  ∀ q, q ≠ [] → q `prefix_of` path → get_at (unset_pruned doc path) q ≠ Some (PyDict ∅).
Proof.
  revert doc. induction path as [|k [|a p] IH]; intros doc Hget q Hne Hpre.
  - destruct Hpre as [x Hx]. by destruct q.
  - destruct (get_at_cons_dict _ _ _ _ Hget) as (m & c & -> & Hk & Hc).
    destruct (prefix_cons_inv _ _ _ Hne Hpre) as (q' & -> & Hq').
    rewrite unset_pruned_single. simpl. by rewrite lookup_delete_eq.
  - destruct (get_at_cons_dict _ _ _ _ Hget) as (m & c & -> & Hk & Hc).
    destruct (prefix_cons_inv _ _ _ Hne Hpre) as (q' & -> & Hq').
    rewrite (unset_pruned_cons _ _ _ _ _ Hk). cbv zeta.
    destruct (Py.equal _ _) eqn:E; cbn [get_at].
    + by rewrite lookup_delete_eq.
    + rewrite lookup_insert_eq. destruct q' as [|b q'].
      * simpl. intros [= Hc']. rewrite Hc' in E.
        by rewrite equal_dict_empty, bool_decide_eq_true_2 in E.
      * by apply (IH c Hc).
Qed.

Lemma split_on_not_nil sep s : Py.split_on sep s ≠ [].
Proof. by destruct (split_on_cons sep s) as (k & ks & ->). Qed.

(** C1.  When every segment of the key path exists in the document,
    [unset_item_from_config] returns a new document in which the final key
    has been deleted and the mappings above it that became empty have been
    removed, all the way up to the root: it is the document [spec_unset]
    describes, the path no longer exists in it, and no ancestor on the
    path is left as an empty mapping. *)
Theorem unset_prunes_empty_ancestors σ config doc property_path leaf :
  deref σ config = Some doc →
  get_at doc (Py.split_on "." property_path) = Some leaf →
  unset_item_from_config config property_path σ
  = (Ok (Ref (length σ) []),
     σ ++ [spec_unset doc (Py.split_on "." property_path)])
  ∧ get_at (spec_unset doc (Py.split_on "." property_path))
           (Py.split_on "." property_path) = None
  ∧ ∀ ancestor, ancestor ≠ [] →
      ancestor `prefix_of` Py.split_on "." property_path →
      get_at (spec_unset doc (Py.split_on "." property_path)) ancestor
      ≠ Some (PyDict ∅).
Proof.
  intros Hdoc Hget.
  pose proof (split_on_not_nil "." property_path) as Hne.
  split; [|split].
  - rewrite (unset_item_from_config_run _ _ _ _ Hdoc).
    by rewrite (unset_tree_resolved _ _ _ _ Hne Hget).
  - rewrite (spec_unset_pruned _ _ _ Hget). by eapply unset_pruned_final_gone.
  - rewrite (spec_unset_pruned _ _ _ Hget). by eapply unset_pruned_no_empty.
Qed.

(** The scenario of C1: [unset("a.b.c")] on [{a: {b: {c: 5}}}] gives [{}]. *)
Lemma unset_prunes_empty_ancestors_witness :
  deref [doc_abc] (Ref 0 []) = Some doc_abc
  ∧ get_at doc_abc (Py.split_on "." "a.b.c") = Some (PyInt 5)
  ∧ unset_item_from_config (Ref 0 []) "a.b.c" [doc_abc]
    = (Ok (Ref 1 []), [doc_abc; PyDict ∅]).
Proof.
  split; [reflexivity|]. split; [reflexivity|].
  exact (proj1 (unset_prunes_empty_ancestors [doc_abc] (Ref 0 []) doc_abc
                  "a.b.c" (PyInt 5) eq_refl eq_refl)).
Defined.

(** ** C2: the input document is not mutated *)

Lemma deref_app σ extra r v : deref σ r = Some v → deref (σ ++ extra) r = Some v.
Proof.
  unfold deref. destruct (σ !! ref_root r) as [t|] eqn:E; [|done].
  by rewrite (lookup_app_l_Some _ _ _ _ E).
Qed.

Lemma run_new_document (op : M ref) σ out copy :
  op σ = (out, σ ++ [copy]) →
  out ≠ Stuck →
  (∀ r, out = Ok r → r = Ref (length σ) []) →
  returns_new_document op σ.
Proof.
  intros Hrun Hout Hr. exists out, (σ ++ [copy]). split; [done|].
  split; [intros r v; apply deref_app|]. split; [done|].
  intros r ->. rewrite (Hr r eq_refl). unfold deref. simpl. split.
  - by rewrite lookup_ge_None_2.
  - rewrite lookup_snoc. eauto.
Qed.

(** C2.  Each of the four mutation operations, run on a document of the
    store, ends (normally or with an exception, never stuck) with every
    value the store held before the call still in place, the input
    document included; what it returns on success is a reference to an
    object that did not exist before the call. *)
Theorem mutations_leave_input_unchanged σ config doc property_path value :
  deref σ config = Some doc →
  returns_new_document (set_item_in_config config property_path value) σ
  ∧ returns_new_document (unset_item_from_config config property_path) σ
  ∧ returns_new_document (add_item_to_config config property_path value) σ
  ∧ returns_new_document (remove_item_from_config config property_path value) σ.
Proof.
  intros Hdoc. repeat split.
  - pose proof (set_item_in_config_run _ _ _ property_path value Hdoc) as H.
    destruct (set_tree _ _ _); eapply run_new_document; eauto; congruence.
  - pose proof (unset_item_from_config_run _ _ _ property_path Hdoc) as H.
    destruct (unset_tree _ _ _); eapply run_new_document; eauto; congruence.
  - pose proof (add_item_to_config_run _ _ _ property_path value Hdoc) as H.
    cbv zeta in H.
    destruct (add_tree _ _ _).1; eapply run_new_document; eauto; congruence.
  - pose proof (remove_item_from_config_run _ _ _ property_path value Hdoc) as H.
    destruct (remove_tree _ _ _ _); eapply run_new_document; eauto; congruence.
Qed.

(** On [{a: "xby"}], where [unset("a.b")] raises, and on the other three
    operations: the store still holds the input. *)
Lemma mutations_leave_input_unchanged_witness :
  deref [doc_a_str] (Ref 0 []) = Some doc_a_str
  ∧ returns_new_document (set_item_in_config (Ref 0 []) "a.b" (PyInt 1)) [doc_a_str]
  ∧ returns_new_document (unset_item_from_config (Ref 0 []) "a.b") [doc_a_str]
  ∧ returns_new_document (add_item_to_config (Ref 0 []) "a.b" (PyInt 1)) [doc_a_str]
  ∧ returns_new_document (remove_item_from_config (Ref 0 []) "a.b" (PyInt 1)) [doc_a_str].
Proof.
  split; [reflexivity|].
  exact (mutations_leave_input_unchanged [doc_a_str] (Ref 0 []) doc_a_str
           "a.b" (PyInt 1) eq_refl).
Defined.

(** ** C3 and C8: set followed by unset, and set followed by set *)

Lemma set_in_single m k value : set_in m [k] value = <[k := value]> m.
Proof. done. Qed.

Lemma set_in_descend m k a q value :
  set_in m (k :: a :: q) value
  = <[k := PyDict (set_in (child_dict m k) (a :: q) value)]> m.
Proof. done. Qed.

Lemma child_dict_insert m k c : child_dict (<[k := PyDict c]> m) k = c.
Proof. unfold child_dict. by rewrite lookup_insert_eq. Qed.

Lemma set_in_idempotent ks : ∀ m value,
  set_in (set_in m ks value) ks value = set_in m ks value.
Proof.
  induction ks as [|k [|a q] IH]; intros m value; [done|..].
  - by rewrite !set_in_single, insert_insert_eq.
  - rewrite !set_in_descend, child_dict_insert, IH. by rewrite insert_insert_eq.
Qed.

Lemma get_at_set_in ks : ∀ m value,
  ks ≠ [] → get_at (PyDict (set_in m ks value)) ks = Some value.
Proof.
  induction ks as [|k [|a q] IH]; intros m value Hne; [done|..].
  - rewrite set_in_single. cbn [get_at]. by rewrite lookup_insert_eq.
  - rewrite set_in_descend. cbn [get_at]. rewrite lookup_insert_eq. by apply IH.
Qed.






(** A mapping on the path that was empty before [set] is pruned as well:
    [set("a.b", 1)] and [unset("a.b")] on [{a: {}}] give [{}]. *)
Lemma unset_after_set_prunes_older_empty :
  ∃ σ1, set_item_in_config (Ref 0 []) "a.b" (PyInt 1) [PyDict {[ "a" := PyDict ∅ ]}]
        = (Ok (Ref 1 []), σ1)
      ∧ unset_item_from_config (Ref 1 []) "a.b" σ1
        = (Ok (Ref 2 []), σ1 ++ [PyDict ∅]).
Proof. eexists. split; reflexivity. Qed.

(** C8.  On a document whose root is a mapping, [set] succeeds, a second
    [set] of the same path to the same value on its result succeeds too,
    and the two results are the same document. *)
Theorem set_is_idempotent σ config m property_path value :
  deref σ config = Some (PyDict m) →
  ∃ once σ1 twice σ2 doc,
    set_item_in_config config property_path value σ = (Ok once, σ1)
    ∧ set_item_in_config once property_path value σ1 = (Ok twice, σ2)
    ∧ deref σ1 once = Some doc
    ∧ deref σ2 twice = Some doc.
Proof.
  intros Hdoc.
  pose proof (set_item_in_config_run _ _ _ property_path value Hdoc) as Hset.
  destruct (split_on_cons "." property_path) as (k & ks & Hks).
  rewrite Hks in *. cbn [set_tree] in Hset.
  set (D1 := PyDict (set_in m (k :: ks) value)) in *.
  assert (H1 : deref (σ ++ [D1]) (Ref (length σ) []) = Some D1).
  { unfold deref. simpl. by rewrite lookup_snoc. }
  pose proof (set_item_in_config_run _ _ _ property_path value H1) as Hset2.
  rewrite Hks in Hset2. cbn [set_tree D1] in Hset2.
  rewrite set_in_idempotent in Hset2. fold D1 in Hset2.
  eexists _, _, _, _, D1. split; [exact Hset|]. split; [exact Hset2|].
  split; [exact H1|].
  unfold deref. simpl. by rewrite lookup_snoc.
Qed.

(** [set("a.b.c", 7)] twice on [{a: {b: {c: 5}}}]. *)
Lemma set_is_idempotent_witness :
  deref [doc_abc] (Ref 0 []) = Some doc_abc
  ∧ ∃ once σ1 twice σ2 doc,
      set_item_in_config (Ref 0 []) "a.b.c" (PyInt 7) [doc_abc] = (Ok once, σ1)
      ∧ set_item_in_config once "a.b.c" (PyInt 7) σ1 = (Ok twice, σ2)
      ∧ deref σ1 once = Some doc
      ∧ deref σ2 twice = Some doc.
Proof.
  split; [reflexivity|].
  exact (set_is_idempotent [doc_abc] (Ref 0 []) _ "a.b.c" (PyInt 7) eq_refl).
Defined.

(** ** C5: remove_item *)

Lemma list_remove_first xs value : ∀ before item after,
  xs = before ++ item :: after →
  Py.equal item value = true →
  Forall (fun y => Py.equal y value = false) before →
  Py.list_remove xs value = Some (before ++ after).
Proof.
  intros before item after -> Hitem Hbefore.
  induction Hbefore as [|y before Hy _ IH]; simpl.
  - by rewrite Hitem.
  - by rewrite Hy, IH.
Qed.

Lemma list_remove_none xs value :
  Forall (fun y => Py.equal y value = false) xs → Py.list_remove xs value = None.
Proof.
  induction 1 as [|y xs Hy _ IH]; simpl; [done|]. by rewrite Hy, IH.
Qed.

Lemma alter_eq_insert (m : gmap string pyval) k c f :
  m !! k = Some c → alter f k m = <[k := f c]> m.
Proof.
  intros Hc. apply map_eq. intros j. destruct (decide (k = j)) as [->|Hne].
  - by rewrite lookup_alter_eq, lookup_insert_eq, Hc.
  - by rewrite lookup_alter_ne, lookup_insert_ne.
Qed.

Lemma remove_in_resolved value pp items ks : ∀ m k p,
  ks = k :: p →
  get_at (PyDict m) ks = Some (PyList items) →
  remove_in m ks value pp
  = match Py.list_remove items value with
    | Some items' => inr (alter (fun c => put_at c p (PyList items')) k m)
    | None => inl not_in_list
    end.
Proof.
  induction ks as [|k' [|a q] IH]; intros m k p Hks Hget; [done|..];
    injection Hks as -> <-;
    destruct (get_at_cons_dict _ _ _ _ Hget) as (m0 & c & [= <-] & Hk & Hc).
  - simpl in Hc. injection Hc as ->. cbn [remove_in]. rewrite Hk.
    destruct (Py.list_remove items value); [|done].
    by rewrite (alter_eq_insert _ _ _ _ Hk).
  - rewrite remove_in_descend, Hk.
    destruct (get_at_cons_dict _ _ _ _ Hc) as (mc & c2 & -> & Hk2 & Hc2).
    rewrite (IH mc a q eq_refl Hc).
    destruct (Py.list_remove items value); [|done].
    by rewrite (alter_eq_insert _ _ _ _ Hk).
Qed.

(** C5.  When the key path resolves to a list, [remove_item_from_config]
    returns a new document in which the first item equal to the value (by
    Python's [==]) has been removed from that list and nothing else has
    changed; when no item equals the value it raises the [ValueError] of
    [list.remove], and the input document is as it was. *)
Theorem remove_item_removes_first_equal σ config doc property_path value items :
  deref σ config = Some doc →
  get_at doc (Py.split_on "." property_path) = Some (PyList items) →
  (∀ before item after,
     items = before ++ item :: after →
     Py.equal item value = true →
     Forall (fun y => Py.equal y value = false) before →
     remove_item_from_config config property_path value σ
     = (Ok (Ref (length σ) []),
        σ ++ [put_at doc (Py.split_on "." property_path)
                (PyList (before ++ after))]))
  ∧ (Forall (fun y => Py.equal y value = false) items →
     ∃ σ', remove_item_from_config config property_path value σ
           = (Raise not_in_list, σ')
         ∧ deref σ' config = Some doc).
Proof.
  intros Hdoc Hget.
  pose proof (remove_item_from_config_run _ _ _ property_path value Hdoc) as Hrun.
  destruct (split_on_cons "." property_path) as (k & ks & Hks).
  rewrite Hks in *.
  destruct (get_at_cons_dict _ _ _ _ Hget) as (m & c & -> & Hk & Hc).
  cbn [remove_tree] in Hrun.
  rewrite (remove_in_resolved value property_path items (k :: ks) m k ks eq_refl Hget)
    in Hrun.
  split.
  - intros before item after Hitems Hitem Hbefore.
    by rewrite (list_remove_first _ _ _ _ _ Hitems Hitem Hbefore) in Hrun.
  - intros Hnone. rewrite (list_remove_none _ _ Hnone) in Hrun.
    eexists. split; [exact Hrun|]. by apply deref_app.
Qed.

(** The scenario: [remove_item("x.y", "v1")] on [{x: {y: [v1, v2]}}] gives
    [{x: {y: [v2]}}]. *)
Lemma remove_item_removes_first_equal_witness :
  deref [doc_xy_list] (Ref 0 []) = Some doc_xy_list
  ∧ get_at doc_xy_list (Py.split_on "." "x.y")
    = Some (PyList [PyStr "v1"; PyStr "v2"])
  ∧ remove_item_from_config (Ref 0 []) "x.y" (PyStr "v1") [doc_xy_list]
    = (Ok (Ref 1 []),
       [doc_xy_list; PyDict {[ "x" := PyDict {[ "y" := PyList [PyStr "v2"] ]} ]}]).
Proof.
  split; [reflexivity|]. split; [reflexivity|].
  exact (proj1 (remove_item_removes_first_equal [doc_xy_list] (Ref 0 [])
                  doc_xy_list "x.y" (PyStr "v1") [PyStr "v1"; PyStr "v2"]
                  eq_refl eq_refl)
           [] (PyStr "v1") [PyStr "v2"] eq_refl eq_refl (Forall_nil_2 _)).
Defined.

(** ** C4: add_item *)

(** What [add_item_to_config] does at the final key of a path that leads
    through mappings, when that key does not hold a string. *)
Lemma add_in_final m k value :
  (∀ s, m !! k ≠ Some (PyStr s)) →
  add_in m [k] value
  = (None, <[k := PyList (match m !! k with
                          | Some (PyList xs) => xs ++ [value]
                          | _ => [value]
                          end)]> m).
Proof.
  intros Hs. cbn [add_in]. destruct (m !! k) as [[]|] eqn:E; try done.
  by destruct (Hs s).
Qed.

(** The scenario: two [add_item("x.y", ...)] from [{}]. *)
Lemma add_item_twice :
  ∃ σ1, add_item_to_config (Ref 0 []) "x.y" (PyStr "v1") [PyDict ∅]
        = (Ok (Ref 1 []), σ1)
      ∧ add_item_to_config (Ref 1 []) "x.y" (PyStr "v2") σ1
        = (Ok (Ref 2 []), σ1 ++ [doc_xy_list]).
Proof. eexists. split; reflexivity. Qed.

(** C4.  On [{x: "hello"}], [add_item("x", "v")] does not replace the string
    by a list: [_is_list] accepts the string, and [append] on it raises
    [AttributeError]. *)
Theorem add_item_on_string_raises :
  add_item_to_config (Ref 0 []) "x" (PyStr "v") [doc_x_str]
  = (Raise AttributeError, [doc_x_str; doc_x_str]).
Proof. reflexivity. Qed.

(** ** C10: unset through a string *)

(** C10.  When a key of the path, not the first, is looked up in a string
    that contains it as a substring, [key in string] answers yes and the
    subscript (or the deletion) by a string key raises [TypeError], which is
    not the [ValueError] of a path that does not exist. *)
Theorem unset_through_string_raises_type_error
    σ config m parent s key rest property_path :
  deref σ config = Some (PyDict m) →
  m !! parent = Some (PyStr s) →
  Py.str_contains key s = true →
  Py.split_on "." property_path = parent :: key :: rest →
  unset_item_from_config config property_path σ
  = (Raise TypeError, σ ++ [PyDict m])
  ∧ TypeError ≠ does_not_exist property_path.
Proof.
  intros Hdoc Hparent Hsub Hsplit. split; [|done].
  rewrite (unset_item_from_config_run _ _ _ _ Hdoc), Hsplit.
  unfold unset_tree. rewrite unset_del_descend, Hparent.
  cbn [unset_del]. unfold not_a_dict_error. cbn [Py.contains]. by rewrite Hsub.
Qed.

(** [unset("a.b")] on [{a: "xby"}]. *)
Lemma unset_through_string_raises_type_error_witness :
  deref [doc_a_str] (Ref 0 []) = Some doc_a_str
  ∧ Py.str_contains "b" "xby" = true
  ∧ Py.split_on "." "a.b" = ["a"; "b"]
  ∧ unset_item_from_config (Ref 0 []) "a.b" [doc_a_str]
    = (Raise TypeError, [doc_a_str; doc_a_str])
  ∧ TypeError ≠ does_not_exist "a.b".
Proof.
  split; [reflexivity|]. split; [reflexivity|]. split; [reflexivity|].
  exact (unset_through_string_raises_type_error [doc_a_str] (Ref 0 [])
           {[ "a" := PyStr "xby" ]} "a" "xby" "b" [] "a.b"
           eq_refl eq_refl eq_refl eq_refl).
Defined.

(** ** C6 and C7: the empty key path, and validation switched off *)

Lemma validate_config_disabled jsonschema_validate config :
  validate_config jsonschema_validate config false = inr tt.
Proof. unfold validate_config. by destruct (jsonschema_validate config). Qed.

Lemma write_command_disabled jsonschema_validate mutate config_path w :
  write_command jsonschema_validate mutate config_path false w
  = write_command accept_all mutate config_path false w.
Proof.
  unfold write_command. case_bool_decide; [done|].
  destruct (bind _ _ _) as [[config| |] σ']; try done.
  by rewrite !validate_config_disabled.
Qed.

Lemma write_command_writes jsonschema_validate mutate config_path w config σ' :
  config_path +:+ ".lock" ∉ held w →
  (r <- mutate (Ref 0 []) ;; load r) [get_current_config w config_path]
  = (Ok config, σ') →
  write_command jsonschema_validate mutate config_path false w
  = (Ok tt, World (<[config_path := config]> (files w)) (held w)).
Proof.
  intros Hlock Hrun. unfold write_command.
  rewrite bool_decide_eq_false_2 by done.
  by rewrite Hrun, validate_config_disabled.
Qed.

(** C6, as the code has it.  The empty path string is not rejected:
    splitting it gives the single segment [""], and the four operations
    treat it as the key [""] of the root mapping.  [set] stores the value
    under that key; [add_item], [unset] and [remove_item] do what they do
    on any one-key path; and the [set] command, with validation switched
    off, writes the file. *)
Theorem empty_path_is_the_empty_key σ config m value :
  deref σ config = Some (PyDict m) →
  Py.split_on "." "" = [""]
  ∧ set_item_in_config config "" value σ
    = (Ok (Ref (length σ) []), σ ++ [PyDict (<["" := value]> m)])
  ∧ add_item_to_config config "" value σ
    = (match (add_in m [""] value).1 with
       | None => Ok (Ref (length σ) [])
       | Some e => Raise e
       end, σ ++ [PyDict (add_in m [""] value).2])
  ∧ unset_item_from_config config "" σ
    = match m !! "" with
      | Some _ => (Ok (Ref (length σ) []), σ ++ [PyDict (delete "" m)])
      | None => (Raise (does_not_exist ""), σ ++ [PyDict m])
      end
  ∧ remove_item_from_config config "" value σ
    = match remove_in m [""] value "" with
      | inr m' => (Ok (Ref (length σ) []), σ ++ [PyDict m'])
      | inl e => (Raise e, σ ++ [PyDict m])
      end
  ∧ ∀ jsonschema_validate config_path w,
      config_path +:+ ".lock" ∉ held w →
      get_current_config w config_path = PyDict m →
      set_config_value jsonschema_validate config_path "" value false w
      = (Ok tt, World (<[config_path := PyDict (<["" := value]> m)]> (files w))
                      (held w)).
Proof.
  intros Hdoc. split; [done|]. split; [|split; [|split; [|split]]].
  - by rewrite (set_item_in_config_run _ _ _ _ _ Hdoc).
  - by rewrite (add_item_to_config_run _ _ _ _ _ Hdoc).
  - rewrite (unset_item_from_config_run _ _ _ _ Hdoc).
    unfold unset_tree. cbn [Py.split_on unset_del]. by destruct (m !! "").
  - rewrite (remove_item_from_config_run _ _ _ _ _ Hdoc).
    cbn [Py.split_on remove_tree]. by destruct (remove_in _ _ _ _).
  - intros jsonschema_validate config_path w Hlock Hcur.
    unfold set_config_value. eapply write_command_writes; [done|].
    rewrite Hcur. unfold bind.
    rewrite (set_item_in_config_run [PyDict m] (Ref 0 []) (PyDict m) "" value eq_refl).
    reflexivity.
Qed.

(** [set("", 5)] on [{}], in the store and on the file. *)
Lemma empty_path_is_the_empty_key_witness :
  deref [PyDict ∅] (Ref 0 []) = Some (PyDict ∅)
  ∧ set_item_in_config (Ref 0 []) "" (PyInt 5) [PyDict ∅]
    = (Ok (Ref 1 []), [PyDict ∅; PyDict {[ "" := PyInt 5 ]}])
  ∧ set_config_value reject_all "config.yaml" "" (PyInt 5) false empty_world
    = (Ok tt, World {[ "config.yaml" := PyDict {[ "" := PyInt 5 ]} ]} ∅).
Proof.
  split; [reflexivity|].
  pose proof (empty_path_is_the_empty_key [PyDict ∅] (Ref 0 []) ∅ (PyInt 5) eq_refl)
    as (_ & Hset & _ & _ & _ & Hfile).
  split; [exact Hset|].
  apply (Hfile reject_all "config.yaml" empty_world); [|reflexivity].
  apply not_elem_of_empty.
Defined.

(** C6, as the specification states it, fails: on the empty document,
    [set] with the empty key path raises nothing and returns a document
    that has the key [""]. *)
Lemma empty_path_is_not_rejected :
  set_item_in_config (Ref 0 []) "" (PyInt 5) [PyDict ∅]
  = (Ok (Ref 1 []), [PyDict ∅; PyDict {[ "" := PyInt 5 ]}])
  ∧ ¬ ∃ e σ', set_item_in_config (Ref 0 []) "" (PyInt 5) [PyDict ∅] = (Raise e, σ').
Proof.
  split; [reflexivity|]. intros (e & σ' & H). vm_compute in H. discriminate H.
Qed.

(** C7.  With validation switched off, [validate_config] lets every
    document through, whatever the schema says about it, and each of the
    four commands does what it would do under a schema that accepts every
    document: when the lock is free and the mutation returns a document,
    that document is written. *)
Theorem validation_disabled_never_aborts jsonschema_validate :
  (∀ config, validate_config jsonschema_validate config false = inr tt)
  ∧ (∀ config_path key_path value w,
       set_config_value jsonschema_validate config_path key_path value false w
       = set_config_value accept_all config_path key_path value false w)
  ∧ (∀ config_path key_path w,
       unset_config_value jsonschema_validate config_path key_path false w
       = unset_config_value accept_all config_path key_path false w)
  ∧ (∀ config_path key_path value w,
       add_config_value jsonschema_validate config_path key_path value false w
       = add_config_value accept_all config_path key_path value false w)
  ∧ (∀ config_path key_path value w,
       remove_config_value jsonschema_validate config_path key_path value false w
       = remove_config_value accept_all config_path key_path value false w)
  ∧ (∀ mutate config_path w config σ',
       config_path +:+ ".lock" ∉ held w →
       (r <- mutate (Ref 0 []) ;; load r) [get_current_config w config_path]
       = (Ok config, σ') →
       write_command jsonschema_validate mutate config_path false w
       = (Ok tt, World (<[config_path := config]> (files w)) (held w))).
Proof.
  split; [apply validate_config_disabled|].
  repeat split; intros; try apply write_command_disabled.
  by eapply write_command_writes.
Qed.

(** Under a schema that rejects every document, [set a.b 5] with
    validation switched off writes the file. *)
Lemma validation_disabled_never_aborts_witness :
  ("config.yaml.lock" ∉ held empty_world)
  ∧ set_config_value reject_all "config.yaml" "a.b" (PyInt 5) false empty_world
    = (Ok tt, World {[ "config.yaml" := PyDict {[ "a" := PyDict {[ "b" := PyInt 5 ]} ]} ]} ∅).
Proof.
  split; [apply not_elem_of_empty|].
  apply (proj2 (proj2 (proj2 (proj2 (proj2
           (validation_disabled_never_aborts reject_all)))))
           (fun config => set_item_in_config config "a.b" (PyInt 5))
           "config.yaml" empty_world
           (PyDict {[ "a" := PyDict {[ "b" := PyInt 5 ]} ]})
           [PyDict ∅; PyDict {[ "a" := PyDict {[ "b" := PyInt 5 ]} ]}]).
  - apply not_elem_of_empty.
  - reflexivity.
Defined.

(** ** C9: value coercion *)

Lemma is_digit_neq c d :
  Py.is_digit c = true → Py.is_digit d = false → Ascii.eqb c d = false.
Proof.
  intros Hc Hd. destruct (Ascii.eqb_spec c d) as [->|]; [congruence|done].
Qed.

Lemma all_digits_free_of c s :
  Py.is_digit c = false → Py.all_digits s = true → Py.free_of c s = true.
Proof.
  intros Hc. induction s as [|d s IH]; simpl; [done|].
  intros [Hd Hs]%andb_true_iff. by rewrite (is_digit_neq d c), IH.
Qed.


Lemma all_digits_app a b :
  Py.all_digits (a +:+ b) = Py.all_digits a && Py.all_digits b.
Proof.
  induction a as [|d a IH]; simpl; [done|]. by rewrite IH, andb_assoc.
Qed.

Lemma chomp_cons2 c c' s :
  Py.chomp (String c (String c' s)) = String c (Py.chomp (String c' s)).
Proof. done. Qed.


Lemma not_line_chomp s : (∀ s', s ≠ line s') → Py.chomp s = s.
Proof.
  induction s as [|c [|c' s] IH]; intros Hs; [done|..].
  - simpl. destruct (Ascii.eqb_spec c Py.newline) as [->|]; [|done].
    by destruct (Hs "").
  - rewrite chomp_cons2, IH; [done|]. intros s' E. apply (Hs (String c s')).
    unfold line in *. simpl. by rewrite E.
Qed.


Lemma cut_at_dot_app a b :
  Py.free_of "." a = true → Py.cut_at_dot (a +:+ "." +:+ b) = Some (a, b).
Proof.
  induction a as [|c a IH]; [done|]. simpl.
  intros [Hc Ha]%andb_true_iff. apply negb_true_iff in Hc. by rewrite Hc, IH.
Qed.


Lemma is_digit_lower_char c : Py.is_digit c = true → Py.lower_char c = c.
Proof.
  unfold Py.is_digit, Py.lower_char, Py.is_upper.
  intros [H1 H2]%andb_true_iff. apply N.leb_le in H1, H2.
  destruct (65 <=? N_of_ascii c)%N eqn:E; [|done].
  apply N.leb_le in E. lia.
Qed.

(** A string of two characters or more that does not start with a digit
    matches neither pattern. *)
Lemma not_a_number c s :
  s ≠ "" → Py.is_digit c = false →
  Py.match_digits (String c s) = false ∧ Py.match_decimal (String c s) = false.
Proof.
  intros Hs Hc. destruct s as [|c' s]; [done|].
  unfold Py.match_digits, Py.match_decimal. rewrite chomp_cons2.
  split.
  - simpl. by rewrite Hc.
  - cbn [Py.cut_at_dot]. destruct (Ascii.eqb c "."); [done|].
    destruct (Py.cut_at_dot _) as [[a b]|]; [|done]. simpl. by rewrite Hc.
Qed.

Lemma lower_word_not_a_number s c word :
  Py.lower s = String c word → word ≠ "" → Py.is_digit c = false →
  Py.match_digits s = false ∧ Py.match_decimal s = false.
Proof.
  destruct s as [|c1 s1]; [done|]. simpl. intros [= Hc Hw] Hword Hdigit.
  apply not_a_number.
  - intros ->. by rewrite <- Hw in Hword.
  - destruct (Py.is_digit c1) eqn:E; [|done].
    rewrite (is_digit_lower_char _ E) in Hc. congruence.
Qed.




(** A newline at the end of the string is let through by [$] and skipped
    by [int]. *)
Lemma parse_value_trailing_newline :
  parse_value (Some (line "42")) = PyInt 42.
Proof. reflexivity. Qed.

(** * Further properties of the module *)

(** ** set_item_in_config *)

Lemma set_in_cons m k r value :
  set_in m (k :: r) value
  = <[k := match r with
           | [] => value
           | _ :: _ => PyDict (set_in (child_dict m k) r value)
           end]> m.
Proof. by destruct r. Qed.

Lemma set_in_overwrite ks : ∀ m v w,
  set_in (set_in m ks v) ks w = set_in m ks w.
Proof.
  induction ks as [|k [|a q] IH]; intros m v w; [done|..].
  - by rewrite !set_in_single, insert_insert_eq.
  - rewrite !set_in_descend, child_dict_insert, IH. by rewrite insert_insert_eq.
Qed.

Lemma get_at_empty_dict q : q ≠ [] → get_at (PyDict ∅) q = None.
Proof. destruct q; [done|]. simpl. by rewrite lookup_empty. Qed.

Lemma get_at_child_dict m k q :
  q ≠ [] → get_at (PyDict (child_dict m k)) q = get_at (PyDict m) (k :: q).
Proof.
  intros Hq. cbn [get_at]. unfold child_dict.
  destruct (m !! k) as [[]|]; try done;
    by (rewrite get_at_empty_dict by done; destruct q).
Qed.

Lemma set_in_frame common : ∀ m k1 r1 k2 r2 value,
  k1 ≠ k2 →
  get_at (PyDict (set_in m (common ++ k1 :: r1) value)) (common ++ k2 :: r2)
  = get_at (PyDict m) (common ++ k2 :: r2).
Proof.
  induction common as [|k common IH]; intros m k1 r1 k2 r2 value Hne.
  - simpl app. rewrite set_in_cons. cbn [get_at]. by rewrite lookup_insert_ne.
  - simpl app.
    assert (∃ a q, common ++ k1 :: r1 = a :: q) as (a & q & Hq)
      by (destruct common; simpl; eauto).
    rewrite Hq, set_in_descend, <- Hq.
    cbn [get_at]. rewrite lookup_insert_eq.
    rewrite IH by done. apply get_at_child_dict. by destruct common.
Qed.

Lemma child_dict_insert_ne m k k' x :
  k ≠ k' → child_dict (<[k := x]> m) k' = child_dict m k'.
Proof. intros H. unfold child_dict. by rewrite lookup_insert_ne. Qed.

Lemma set_in_commute common : ∀ m k1 r1 k2 r2 v w,
  k1 ≠ k2 →
  set_in (set_in m (common ++ k1 :: r1) v) (common ++ k2 :: r2) w
  = set_in (set_in m (common ++ k2 :: r2) w) (common ++ k1 :: r1) v.
Proof.
  induction common as [|k common IH]; intros m k1 r1 k2 r2 v w Hne.
  - simpl app. rewrite !set_in_cons.
    rewrite !child_dict_insert_ne by done. by rewrite insert_insert_ne.
  - simpl app.
    assert (∃ a q, common ++ k1 :: r1 = a :: q) as (a & q & Hq)
      by (destruct common; simpl; eauto).
    assert (∃ a' q', common ++ k2 :: r2 = a' :: q') as (a' & q' & Hq')
      by (destruct common; simpl; eauto).
    rewrite Hq, Hq', !set_in_descend, !child_dict_insert, !insert_insert_eq.
    rewrite <- Hq, <- Hq'. by rewrite IH.
Qed.

Lemma deref_snoc σ doc : deref (σ ++ [doc]) (Ref (length σ) []) = Some doc.
Proof. unfold deref. simpl. by rewrite lookup_snoc. Qed.

Lemma set_item_in_config_dict σ config m property_path value :
  deref σ config = Some (PyDict m) →
  set_item_in_config config property_path value σ
  = (Ok (Ref (length σ) []),
     σ ++ [PyDict (set_in m (Py.split_on "." property_path) value)]).
Proof.
  intros Hdoc. rewrite (set_item_in_config_run _ _ _ _ _ Hdoc).
  by destruct (split_on_cons "." property_path) as (k & ks & ->).
Qed.

(** X1.  On a document whose root is a mapping, [set_item_in_config] never
    raises, and in the document it returns the key path leads to the value
    through mappings, whatever the path held before. *)
Theorem set_then_lookup σ config m property_path value :
  deref σ config = Some (PyDict m) →
  ∃ doc, set_item_in_config config property_path value σ
         = (Ok (Ref (length σ) []), σ ++ [doc])
       ∧ get_at doc (Py.split_on "." property_path) = Some value.
Proof.
  intros Hdoc. eexists. split; [by apply set_item_in_config_dict|].
  apply get_at_set_in, split_on_not_nil.
Qed.

(** [set("a.b", 1)] on [{a: "xby"}]: the string under [a] is replaced. *)
Lemma set_then_lookup_witness :
  deref [doc_a_str] (Ref 0 []) = Some doc_a_str
  ∧ ∃ doc, set_item_in_config (Ref 0 []) "a.b" (PyInt 1) [doc_a_str]
           = (Ok (Ref 1 []), [doc_a_str; doc])
         ∧ get_at doc ["a"; "b"] = Some (PyInt 1).
Proof.
  split; [reflexivity|].
  exact (set_then_lookup [doc_a_str] (Ref 0 []) _ "a.b" (PyInt 1) eq_refl).
Defined.

(** X2.  [set_item_in_config] changes nothing off its path: a path that
    parts ways with the key path leads to the same thing in the document
    returned as in the original. *)
Theorem set_leaves_other_paths σ config m property_path value other :
  deref σ config = Some (PyDict m) →
  diverge (Py.split_on "." property_path) other →
  ∃ doc, set_item_in_config config property_path value σ
         = (Ok (Ref (length σ) []), σ ++ [doc])
       ∧ get_at doc other = get_at (PyDict m) other.
Proof.
  intros Hdoc (common & k1 & r1 & k2 & r2 & Hp & -> & Hne).
  eexists. split; [by apply set_item_in_config_dict|].
  rewrite Hp. by apply set_in_frame.
Qed.

(** [set("a.b.z", 7)] on [{a: {b: {c: 5}}}] leaves [a.b.c] alone. *)
Lemma set_leaves_other_paths_witness :
  deref [doc_abc] (Ref 0 []) = Some doc_abc
  ∧ diverge (Py.split_on "." "a.b.z") ["a"; "b"; "c"]
  ∧ ∃ doc, set_item_in_config (Ref 0 []) "a.b.z" (PyInt 7) [doc_abc]
           = (Ok (Ref 1 []), [doc_abc; doc])
         ∧ get_at doc ["a"; "b"; "c"] = Some (PyInt 5).
Proof.
  assert (Hd : diverge (Py.split_on "." "a.b.z") ["a"; "b"; "c"]).
  { by exists ["a"; "b"], "z", [], "c", []. }
  split; [reflexivity|]. split; [exact Hd|].
  exact (set_leaves_other_paths [doc_abc] (Ref 0 []) _ "a.b.z" (PyInt 7)
           ["a"; "b"; "c"] eq_refl Hd).
Defined.

(** X3.  The last [set] wins: setting a path to [v] and then, on the
    result, to [w] gives the document that setting it to [w] gives. *)
Theorem set_overwrites σ config m property_path v w :
  deref σ config = Some (PyDict m) →
  ∃ first σ1 second σ2 direct σ3 doc,
    set_item_in_config config property_path v σ = (Ok first, σ1)
    ∧ set_item_in_config first property_path w σ1 = (Ok second, σ2)
    ∧ set_item_in_config config property_path w σ = (Ok direct, σ3)
    ∧ deref σ2 second = Some doc
    ∧ deref σ3 direct = Some doc.
Proof.
  intros Hdoc.
  eexists _, _, _, _, _, _, _.
  split; [by apply set_item_in_config_dict|].
  split; [by apply set_item_in_config_dict, deref_snoc|].
  split; [by apply set_item_in_config_dict|].
  rewrite set_in_overwrite. split; apply deref_snoc.
Qed.

Lemma set_overwrites_witness :
  deref [doc_abc] (Ref 0 []) = Some doc_abc
  ∧ ∃ first σ1 second σ2 direct σ3 doc,
      set_item_in_config (Ref 0 []) "a.b" (PyInt 1) [doc_abc] = (Ok first, σ1)
      ∧ set_item_in_config first "a.b" (PyStr "w") σ1 = (Ok second, σ2)
      ∧ set_item_in_config (Ref 0 []) "a.b" (PyStr "w") [doc_abc] = (Ok direct, σ3)
      ∧ deref σ2 second = Some doc
      ∧ deref σ3 direct = Some doc.
Proof.
  split; [reflexivity|].
  exact (set_overwrites [doc_abc] (Ref 0 []) _ "a.b" (PyInt 1) (PyStr "w") eq_refl).
Defined.

(** X4.  Two [set]s on paths that part ways commute: either order gives
    the same document. *)
Theorem sets_on_parting_paths_commute σ config m path1 v path2 w :
  deref σ config = Some (PyDict m) →
  diverge (Py.split_on "." path1) (Py.split_on "." path2) →
  ∃ r1 σ1 r12 σ12 r2 σ2 r21 σ21 doc,
    set_item_in_config config path1 v σ = (Ok r1, σ1)
    ∧ set_item_in_config r1 path2 w σ1 = (Ok r12, σ12)
    ∧ set_item_in_config config path2 w σ = (Ok r2, σ2)
    ∧ set_item_in_config r2 path1 v σ2 = (Ok r21, σ21)
    ∧ deref σ12 r12 = Some doc
    ∧ deref σ21 r21 = Some doc.
Proof.
  intros Hdoc (common & k1 & r1 & k2 & r2 & Hp1 & Hp2 & Hne).
  eexists _, _, _, _, _, _, _, _, _.
  split; [by apply set_item_in_config_dict|].
  split; [by apply set_item_in_config_dict, deref_snoc|].
  split; [by apply set_item_in_config_dict|].
  split; [by apply set_item_in_config_dict, deref_snoc|].
  rewrite Hp1, Hp2, set_in_commute by done. split; apply deref_snoc.
Qed.

Lemma sets_on_parting_paths_commute_witness :
  deref [doc_abc] (Ref 0 []) = Some doc_abc
  ∧ diverge (Py.split_on "." "a.x") (Py.split_on "." "a.b.y")
  ∧ ∃ r1 σ1 r12 σ12 r2 σ2 r21 σ21 doc,
      set_item_in_config (Ref 0 []) "a.x" (PyInt 1) [doc_abc] = (Ok r1, σ1)
      ∧ set_item_in_config r1 "a.b.y" (PyInt 2) σ1 = (Ok r12, σ12)
      ∧ set_item_in_config (Ref 0 []) "a.b.y" (PyInt 2) [doc_abc] = (Ok r2, σ2)
      ∧ set_item_in_config r2 "a.x" (PyInt 1) σ2 = (Ok r21, σ21)
      ∧ deref σ12 r12 = Some doc
      ∧ deref σ21 r21 = Some doc.
Proof.
  assert (Hd : diverge (Py.split_on "." "a.x") (Py.split_on "." "a.b.y")).
  { by exists ["a"], "x", [], "b", ["y"]. }
  split; [reflexivity|]. split; [exact Hd|].
  exact (sets_on_parting_paths_commute [doc_abc] (Ref 0 []) _ "a.x" (PyInt 1)
           "a.b.y" (PyInt 2) eq_refl Hd).
Defined.

(** ** Roots that are not mappings *)

(** X5.  On a document whose root is not a mapping (the [None] that an
    empty file loads as, a scalar, a list), [set_item_in_config] and
    [add_item_to_config] raise [TypeError] and leave the store as the copy
    left it; when the root is not a string or a list either,
    [unset_item_from_config] and [remove_item_from_config] raise
    [TypeError] as well. *)
Theorem non_mapping_root_raises σ config doc property_path value :
  deref σ config = Some doc →
  Py.is_mapping doc = false →
  set_item_in_config config property_path value σ
  = (Raise TypeError, σ ++ [doc])
  ∧ add_item_to_config config property_path value σ
    = (Raise TypeError, σ ++ [doc])
  ∧ (Py.is_sequence doc = false →
     unset_item_from_config config property_path σ
     = (Raise TypeError, σ ++ [doc])
     ∧ remove_item_from_config config property_path value σ
       = (Raise TypeError, σ ++ [doc])).
Proof.
  intros Hdoc Hmap.
  destruct (split_on_cons "." property_path) as (k & ks & Hks).
  split; [|split; [|intros Hseq; split]].
  - rewrite (set_item_in_config_run _ _ _ _ _ Hdoc), Hks. by destruct doc.
  - rewrite (add_item_to_config_run _ _ _ _ _ Hdoc), Hks. by destruct doc.
  - rewrite (unset_item_from_config_run _ _ _ _ Hdoc), Hks.
    unfold unset_tree. by destruct doc.
  - rewrite (remove_item_from_config_run _ _ _ _ _ Hdoc), Hks.
    by destruct doc.
Qed.

(** The root [None]. *)
Lemma non_mapping_root_raises_witness :
  deref [PyNone] (Ref 0 []) = Some PyNone
  ∧ Py.is_mapping PyNone = false
  ∧ set_item_in_config (Ref 0 []) "a.b" (PyInt 1) [PyNone]
    = (Raise TypeError, [PyNone; PyNone])
  ∧ Py.is_sequence PyNone = false
  ∧ unset_item_from_config (Ref 0 []) "a.b" [PyNone]
    = (Raise TypeError, [PyNone; PyNone]).
Proof.
  pose proof (non_mapping_root_raises [PyNone] (Ref 0 []) PyNone "a.b" (PyInt 1)
                eq_refl eq_refl) as (Hset & _ & Hrest).
  split; [reflexivity|]. split; [reflexivity|]. split; [exact Hset|].
  split; [reflexivity|]. exact (proj1 (Hrest eq_refl)).
Defined.

(** ** unset_item_from_config *)

Lemma app_cons_not_nil {A} (l : list A) x r : ∃ a q, l ++ x :: r = a :: q.
Proof. destruct l; simpl; eauto. Qed.

Lemma unset_del_missing prefix : ∀ t m k rest pp,
  get_at t prefix = Some (PyDict m) → m !! k = None →
  unset_del t (prefix ++ k :: rest) pp = inl (does_not_exist pp).
Proof.
  induction prefix as [|a p IH]; intros t m k rest pp Hget Hk.
  - simpl in Hget. injection Hget as ->. cbn [app unset_del]. by rewrite Hk.
  - destruct (get_at_cons_dict _ _ _ _ Hget) as (m0 & c & -> & Ha & Hc).
    simpl app. destruct (app_cons_not_nil p k rest) as (x & y & Hxy).
    rewrite Hxy, unset_del_descend, Ha, <- Hxy. by rewrite (IH c m).
Qed.

(** X6.  When the walk of [unset_item_from_config] reaches a mapping that
    lacks the next key of the path, at the end of the path or before, it
    raises the [ValueError] whose message names the whole key path, and
    the copy is as the input was. *)
Theorem unset_missing_key_raises σ config doc property_path prefix m key rest :
  deref σ config = Some doc →
  Py.split_on "." property_path = prefix ++ key :: rest →
  get_at doc prefix = Some (PyDict m) →
  m !! key = None →
  unset_item_from_config config property_path σ
  = (Raise (ValueError (property_path +:+ " does not exist in config!")),
     σ ++ [doc]).
Proof.
  intros Hdoc Hsplit Hget Hkey.
  rewrite (unset_item_from_config_run _ _ _ _ Hdoc), Hsplit.
  unfold unset_tree. by rewrite (unset_del_missing _ _ _ _ _ _ Hget Hkey).
Qed.

(** [unset("a.b.z")] on [{a: {b: {c: 5}}}]. *)
Lemma unset_missing_key_raises_witness :
  deref [doc_abc] (Ref 0 []) = Some doc_abc
  ∧ Py.split_on "." "a.b.z" = ["a"; "b"] ++ "z" :: []
  ∧ unset_item_from_config (Ref 0 []) "a.b.z" [doc_abc]
    = (Raise (ValueError "a.b.z does not exist in config!"), [doc_abc; doc_abc]).
Proof.
  split; [reflexivity|]. split; [reflexivity|].
  exact (unset_missing_key_raises [doc_abc] (Ref 0 []) doc_abc "a.b.z"
           ["a"; "b"] {[ "c" := PyInt 5 ]} "z" [] eq_refl eq_refl eq_refl eq_refl).
Defined.

(** X7.  When the mapping that holds the final key holds another key as
    well, [unset_item_from_config] removes the final key and nothing else:
    no pruning takes place. *)
Theorem unset_keeps_nonempty_parent
    σ config doc property_path parent m key sibling :
  deref σ config = Some doc →
  Py.split_on "." property_path = parent ++ [key] →
  get_at doc parent = Some (PyDict m) →
  is_Some (m !! key) →
  sibling ≠ key → is_Some (m !! sibling) →
  unset_item_from_config config property_path σ
  = (Ok (Ref (length σ) []),
     σ ++ [put_at doc parent (PyDict (delete key m))]).
Proof.
  intros Hdoc Hsplit Hget [leaf Hkey] Hne [other Hsib].
  assert (Hleaf : get_at doc (parent ++ [key]) = Some leaf).
  { by rewrite (get_at_snoc _ _ _ _ Hget). }
  rewrite (unset_item_from_config_run _ _ _ _ Hdoc), Hsplit.
  rewrite (unset_tree_resolved _ _ leaf) by (done || by destruct parent).
  rewrite (spec_unset_pruned _ _ _ Hleaf). unfold unset_pruned.
  rewrite but_last_snoc, (del_at_snoc _ _ _ _ Hget).
  erewrite prune_tree_id; [done|apply get_put_at; eauto|].
  rewrite equal_dict_empty. apply bool_decide_eq_false_2. intros Hempty.
  assert (delete key m !! sibling = Some other) as Hl
    by by rewrite lookup_delete_ne.
  by rewrite Hempty, lookup_empty in Hl.
Qed.

(** [unset("x.a")] on [{x: {a: 1, b: 2}}] gives [{x: {b: 2}}]. *)
Lemma unset_keeps_nonempty_parent_witness :
  unset_item_from_config (Ref 0 []) "x.a"
    [PyDict {[ "x" := PyDict (<["a" := PyInt 1]> {[ "b" := PyInt 2 ]}) ]}]
  = (Ok (Ref 1 []),
     [PyDict {[ "x" := PyDict (<["a" := PyInt 1]> {[ "b" := PyInt 2 ]}) ]};
      PyDict {[ "x" := PyDict {[ "b" := PyInt 2 ]} ]}]).
Proof.
  exact (unset_keeps_nonempty_parent
           [PyDict {[ "x" := PyDict (<["a" := PyInt 1]> {[ "b" := PyInt 2 ]}) ]}]
           (Ref 0 []) _ "x.a" ["x"] (<["a" := PyInt 1]> {[ "b" := PyInt 2 ]})
           "a" "b" eq_refl eq_refl eq_refl
           (ex_intro _ (PyInt 1) eq_refl) ltac:(discriminate)
           (ex_intro _ (PyInt 2) eq_refl)).
Defined.

Lemma unset_del_after_unset path : ∀ doc leaf pp,
  path ≠ [] → get_at doc path = Some leaf →
  unset_del (unset_pruned doc path) path pp = inl (does_not_exist pp).
Proof.
  induction path as [|k [|a q] IH]; intros doc leaf pp Hne Hget; [done|..];
    destruct (get_at_cons_dict _ _ _ _ Hget) as (m & c & -> & Hk & Hc).
  - rewrite unset_pruned_single. cbn [unset_del]. by rewrite lookup_delete_eq.
  - rewrite (unset_pruned_cons _ _ _ _ _ Hk). cbv zeta.
    destruct (Py.equal _ _); rewrite unset_del_descend.
    + by rewrite lookup_delete_eq.
    + rewrite lookup_insert_eq. by rewrite (IH c leaf).
Qed.

(** X8.  [unset_item_from_config] does not succeed twice: after it has
    removed a path, a second call with the same path on the document it
    returned raises the [ValueError] of a path that does not exist. *)
Theorem unset_twice_raises σ config doc property_path leaf :
  deref σ config = Some doc →
  get_at doc (Py.split_on "." property_path) = Some leaf →
  ∃ once σ1 σ2,
    unset_item_from_config config property_path σ = (Ok once, σ1)
    ∧ unset_item_from_config once property_path σ1
      = (Raise (does_not_exist property_path), σ2).
Proof.
  intros Hdoc Hget.
  pose proof (split_on_not_nil "." property_path) as Hne.
  eexists _, _, _. split.
  - rewrite (unset_item_from_config_run _ _ _ _ Hdoc).
    by rewrite (unset_tree_resolved _ _ _ _ Hne Hget).
  - rewrite (unset_item_from_config_run _ _ _ _ (deref_snoc _ _)).
    unfold unset_tree. rewrite (spec_unset_pruned _ _ _ Hget).
    by rewrite (unset_del_after_unset _ _ _ _ Hne Hget).
Qed.

Lemma unset_twice_raises_witness :
  deref [doc_abc] (Ref 0 []) = Some doc_abc
  ∧ get_at doc_abc (Py.split_on "." "a.b.c") = Some (PyInt 5)
  ∧ ∃ once σ1 σ2,
      unset_item_from_config (Ref 0 []) "a.b.c" [doc_abc] = (Ok once, σ1)
      ∧ unset_item_from_config once "a.b.c" σ1
        = (Raise (does_not_exist "a.b.c"), σ2).
Proof.
  split; [reflexivity|]. split; [reflexivity|].
  exact (unset_twice_raises [doc_abc] (Ref 0 []) doc_abc "a.b.c" (PyInt 5)
           eq_refl eq_refl).
Defined.

(** ** add_item_to_config and remove_item_from_config *)

Lemma get_at_cons_through m a p x :
  get_at (PyDict m) (a :: p) = Some (PyDict x) →
  ∃ c, m !! a = Some (PyDict c) ∧ get_at (PyDict c) p = Some (PyDict x).
Proof.
  intros Hget.
  destruct (get_at_cons_dict _ _ _ _ Hget) as (m0 & c & [= <-] & Ha & Hc).
  destruct p as [|b p].
  - simpl in Hc. injection Hc as ->. eauto.
  - destruct (get_at_cons_dict _ _ _ _ Hc) as (mc & c2 & -> & _ & _). eauto.
Qed.

Lemma child_dict_some m k c : m !! k = Some (PyDict c) → child_dict m k = c.
Proof. unfold child_dict. by intros ->. Qed.

Lemma add_in_resolved parent : ∀ m m' k value,
  get_at (PyDict m) parent = Some (PyDict m') →
  (add_in m (parent ++ [k]) value).1 = (add_in m' [k] value).1
  ∧ PyDict (add_in m (parent ++ [k]) value).2
    = put_at (PyDict m) parent (PyDict (add_in m' [k] value).2).
Proof.
  induction parent as [|a p IH]; intros m m' k value Hget.
  - simpl in Hget. by injection Hget as ->.
  - destruct (get_at_cons_through _ _ _ _ Hget) as (c & Ha & Hc).
    simpl app. destruct (app_cons_not_nil p k []) as (x & y & Hxy).
    rewrite Hxy, add_in_descend, <- Hxy, (child_dict_some _ _ _ Ha).
    destruct (IH c m' k value Hc) as [H1 H2]. split; [done|].
    cbn [snd put_at]. rewrite (alter_eq_insert _ _ _ _ Ha). by rewrite <- H2.
Qed.

Lemma add_tree_resolved doc parent m k value :
  get_at doc parent = Some (PyDict m) →
  add_tree doc (parent ++ [k]) value
  = ((add_in m [k] value).1, put_at doc parent (PyDict (add_in m [k] value).2)).
Proof.
  intros Hget.
  assert (∃ m0, doc = PyDict m0) as [m0 ->].
  { destruct parent as [|a p].
    - simpl in Hget. injection Hget as ->. eauto.
    - destruct (get_at_cons_dict _ _ _ _ Hget) as (m0 & _ & -> & _). eauto. }
  destruct (add_in_resolved parent m0 m k value Hget) as [H1 H2].
  destruct (app_cons_not_nil parent k []) as (x & y & Hxy).
  rewrite Hxy. cbn [add_tree]. rewrite <- Hxy. by rewrite H1, H2.
Qed.

(** X9.  When the keys before the last lead through mappings and the last
    key does not hold a string, [add_item_to_config] returns the document
    in which that key holds the list that was there with the value
    appended at its end, or the list of the value alone when the key was
    absent or held something else; the rest of the document is as it was. *)
Theorem add_item_appends σ config doc property_path parent m key value :
  deref σ config = Some doc →
  Py.split_on "." property_path = parent ++ [key] →
  get_at doc parent = Some (PyDict m) →
  (∀ s, m !! key ≠ Some (PyStr s)) →
  add_item_to_config config property_path value σ
  = (Ok (Ref (length σ) []),
     σ ++ [put_at doc parent
             (PyDict (<[key := PyList (match m !! key with
                                      | Some (PyList items) => items ++ [value]
                                      | _ => [value]
                                      end)]> m))]).
Proof.
  intros Hdoc Hsplit Hget Hstr.
  rewrite (add_item_to_config_run _ _ _ _ _ Hdoc), Hsplit.
  rewrite (add_tree_resolved _ _ _ _ _ Hget).
  by rewrite (add_in_final _ _ _ Hstr).
Qed.

(** [add_item("x.y", "v3")] on [{x: {y: [v1, v2]}}]. *)
Lemma add_item_appends_witness :
  add_item_to_config (Ref 0 []) "x.y" (PyStr "v3") [doc_xy_list]
  = (Ok (Ref 1 []),
     [doc_xy_list;
      PyDict {[ "x" := PyDict {[ "y" := PyList [PyStr "v1"; PyStr "v2"; PyStr "v3"] ]} ]}]).
Proof.
  exact (add_item_appends [doc_xy_list] (Ref 0 []) doc_xy_list "x.y" ["x"]
           {[ "y" := PyList [PyStr "v1"; PyStr "v2"] ]} "y" (PyStr "v3")
           eq_refl eq_refl eq_refl ltac:(intros s; discriminate)).
Defined.

Lemma remove_tree_resolved doc ks items value pp :
  ks ≠ [] →
  get_at doc ks = Some (PyList items) →
  remove_tree doc ks value pp
  = match Py.list_remove items value with
    | Some items' => inr (put_at doc ks (PyList items'))
    | None => inl not_in_list
    end.
Proof.
  intros Hne Hget. destruct ks as [|k p]; [done|].
  destruct (get_at_cons_dict _ _ _ _ Hget) as (m & c & -> & _ & _).
  cbn [remove_tree]. rewrite (remove_in_resolved _ _ _ _ m k p eq_refl Hget).
  by destruct (Py.list_remove items value).
Qed.

(** X10.  [add_item_to_config] followed by [remove_item_from_config] of
    the same value gives back the original document, when the path holds
    a list, no item of the list equals the value, and the value equals
    itself. *)
Theorem add_then_remove_restores σ config doc property_path items value :
  deref σ config = Some doc →
  get_at doc (Py.split_on "." property_path) = Some (PyList items) →
  Forall (fun y => Py.equal y value = false) items →
  Py.equal value value = true →
  ∃ added σ1 removed σ2,
    add_item_to_config config property_path value σ = (Ok added, σ1)
    ∧ remove_item_from_config added property_path value σ1 = (Ok removed, σ2)
    ∧ deref σ2 removed = Some doc.
Proof.
  intros Hdoc Hget Hnone Hrefl.
  pose proof (split_on_not_nil "." property_path) as Hne.
  destruct (snoc_cases (Py.split_on "." property_path))
    as [Hnil|(parent & key & Hsplit)]; [done|].
  rewrite Hsplit in Hget, Hne.
  destruct (get_at_prefix _ _ _ _ Hget) as (u & Hparent & Hu).
  destruct (get_at_cons_dict _ _ _ _ Hu) as (m & c & -> & Hkey & [= ->]).
  set (doc1 := put_at doc (parent ++ [key]) (PyList (items ++ [value]))).
  assert (Hadd : add_item_to_config config property_path value σ
                 = (Ok (Ref (length σ) []), σ ++ [doc1])).
  { rewrite (add_item_to_config_run _ _ _ _ _ Hdoc), Hsplit.
    rewrite (add_tree_resolved _ _ _ _ _ Hparent). cbn [add_in]. rewrite Hkey.
    unfold doc1. erewrite put_at_snoc; eauto. }
  assert (Hget1 : get_at doc1 (parent ++ [key]) = Some (PyList (items ++ [value]))).
  { apply get_put_at. eauto. }
  eexists _, _, _, _. split; [exact Hadd|]. split.
  - rewrite (remove_item_from_config_run _ _ _ _ _ (deref_snoc _ _)), Hsplit.
    rewrite (remove_tree_resolved _ _ _ _ _ Hne Hget1).
    by rewrite (list_remove_first _ _ items value [] eq_refl Hrefl Hnone).
  - rewrite deref_snoc. f_equal. unfold doc1.
    by rewrite put_put_at, app_nil_r, put_at_id.
Qed.

(** [add_item("x.y", "v3")] then [remove_item("x.y", "v3")] on
    [{x: {y: [v1, v2]}}]. *)
Lemma add_then_remove_restores_witness :
  ∃ added σ1 removed σ2,
    add_item_to_config (Ref 0 []) "x.y" (PyStr "v3") [doc_xy_list] = (Ok added, σ1)
    ∧ remove_item_from_config added "x.y" (PyStr "v3") σ1 = (Ok removed, σ2)
    ∧ deref σ2 removed = Some doc_xy_list.
Proof.
  apply (add_then_remove_restores [doc_xy_list] (Ref 0 []) doc_xy_list "x.y"
           [PyStr "v1"; PyStr "v2"] (PyStr "v3") eq_refl eq_refl).
  - repeat constructor.
  - reflexivity.
Defined.

Lemma remove_in_error_prefix prefix : ∀ m m' rest value pp e,
  get_at (PyDict m) prefix = Some (PyDict m') →
  rest ≠ [] →
  remove_in m' rest value pp = inl e →
  remove_in m (prefix ++ rest) value pp = inl e.
Proof.
  induction prefix as [|a p IH]; intros m m' rest value pp e Hget Hne Herr.
  - simpl in Hget. by injection Hget as ->.
  - destruct (get_at_cons_through _ _ _ _ Hget) as (c & Ha & Hc).
    simpl app.
    assert (∃ x y, p ++ rest = x :: y) as (x & y & Hxy).
    { destruct p; [destruct rest|]; simpl; eauto. done. }
    rewrite Hxy, remove_in_descend, Ha, <- Hxy.
    by rewrite (IH c m' rest value pp e).
Qed.

Lemma get_at_root_dict doc prefix m :
  get_at doc prefix = Some (PyDict m) → ∃ m0, doc = PyDict m0.
Proof.
  destruct prefix as [|a p]; intros Hget.
  - simpl in Hget. injection Hget as ->. eauto.
  - destruct (get_at_cons_dict _ _ _ _ Hget) as (m0 & _ & -> & _). eauto.
Qed.

(** X11.  The two [ValueError]s of [remove_item_from_config].  When a key
    before the last is absent from its mapping or does not hold a mapping,
    it raises "does not exist in config!"; when the last key is absent
    or holds neither a list nor a string, it raises "is not a list".
    Either message starts with the whole key path, and the copy is as the
    input was. *)
Theorem remove_item_path_errors σ config doc property_path value prefix m key rest :
  deref σ config = Some doc →
  Py.split_on "." property_path = prefix ++ key :: rest →
  get_at doc prefix = Some (PyDict m) →
  (rest ≠ [] → (∀ c, m !! key ≠ Some (PyDict c)) →
   remove_item_from_config config property_path value σ
   = (Raise (ValueError (property_path +:+ " does not exist in config!")),
      σ ++ [doc]))
  ∧ (rest = [] →
     (∀ items, m !! key ≠ Some (PyList items)) →
     (∀ s, m !! key ≠ Some (PyStr s)) →
     remove_item_from_config config property_path value σ
     = (Raise (ValueError (property_path +:+ " is not a list")), σ ++ [doc])).
Proof.
  intros Hdoc Hsplit Hget.
  destruct (get_at_root_dict _ _ _ Hget) as [m0 ->].
  pose proof (remove_item_from_config_run _ _ _ property_path value Hdoc) as Hrun.
  rewrite Hsplit in Hrun.
  destruct (app_cons_not_nil prefix key rest) as (x & y & Hxy).
  rewrite Hxy in Hrun. cbn [remove_tree] in Hrun. rewrite <- Hxy in Hrun.
  split.
  - intros Hrest Hkey.
    rewrite (remove_in_error_prefix prefix m0 m (key :: rest) value property_path
               (does_not_exist property_path) Hget) in Hrun; [done|done|].
    destruct rest as [|a q]; [done|]. rewrite remove_in_descend.
    destruct (m !! key) as [[]|] eqn:E; try done. by destruct (Hkey entries).
  - intros -> Hlist Hstr.
    rewrite (remove_in_error_prefix prefix m0 m [key] value property_path
               (is_not_a_list property_path) Hget) in Hrun; [done|done|].
    cbn [remove_in].
    destruct (m !! key) as [[]|] eqn:E; try done.
    + by destruct (Hstr s).
    + by destruct (Hlist items).
Qed.

(** [remove_item("a.b.z", 1)] and [remove_item("a.b.c.d", 1)] on
    [{a: {b: {c: 5}}}]. *)
Lemma remove_item_path_errors_witness :
  remove_item_from_config (Ref 0 []) "a.b.c.d" (PyInt 1) [doc_abc]
  = (Raise (ValueError "a.b.c.d does not exist in config!"), [doc_abc; doc_abc])
  ∧ remove_item_from_config (Ref 0 []) "a.b.z" (PyInt 1) [doc_abc]
    = (Raise (ValueError "a.b.z is not a list"), [doc_abc; doc_abc]).
Proof.
  split.
  - apply (proj1 (remove_item_path_errors [doc_abc] (Ref 0 []) doc_abc "a.b.c.d"
                    (PyInt 1) ["a"; "b"] {[ "c" := PyInt 5 ]} "c" ["d"]
                    eq_refl eq_refl eq_refl)); [discriminate|].
    intros c. discriminate.
  - apply (proj2 (remove_item_path_errors [doc_abc] (Ref 0 []) doc_abc "a.b.z"
                    (PyInt 1) ["a"; "b"] {[ "c" := PyInt 5 ]} "z" []
                    eq_refl eq_refl eq_refl)); [reflexivity|..];
      intros ?; discriminate.
Defined.

(** ** The file-level commands *)




(** X13.  With validation on, the document a mutation returns is written
    exactly when the schema accepts it; when the schema rejects it, the
    command exits with status 1 and the file is as it was. *)
Theorem validation_decides_the_write
    jsonschema_validate mutate config_path w config σ' :
  config_path +:+ ".lock" ∉ held w →
  (r <- mutate (Ref 0 []) ;; load r) [get_current_config w config_path]
  = (Ok config, σ') →
  write_command jsonschema_validate mutate config_path true w
  = match jsonschema_validate config with
    | None => (Ok tt, World (<[config_path := config]> (files w)) (held w))
    | Some _ => (Raise (SystemExit 1), w)
    end.
Proof.
  intros Hlock Hrun. unfold write_command, validate_config.
  rewrite bool_decide_eq_false_2, Hrun by done.
  by destruct (jsonschema_validate config).
Qed.

(** [set a.b 5] under a schema that rejects everything. *)
Lemma validation_decides_the_write_witness :
  set_config_value reject_all "config.yaml" "a.b" (PyInt 5) true empty_world
  = (Raise (SystemExit 1), empty_world).
Proof.
  apply (validation_decides_the_write reject_all
           (fun config => set_item_in_config config "a.b" (PyInt 5))
           "config.yaml" empty_world
           (PyDict {[ "a" := PyDict {[ "b" := PyInt 5 ]} ]})
           [PyDict ∅; PyDict {[ "a" := PyDict {[ "b" := PyInt 5 ]} ]}]).
  - apply not_elem_of_empty.
  - reflexivity.
Defined.




(** ** parse_value, further *)

Lemma line_cons c s : line (String c s) = String c (line s).
Proof. done. Qed.

Lemma chomp_line s : Py.chomp (line s) = s.
Proof.
  induction s as [|c s IH]; [done|].
  rewrite line_cons. destruct s as [|c' s].
  - done.
  - rewrite line_cons in *. by rewrite chomp_cons2, IH.
Qed.

Lemma lower_line s : Py.lower (line s) = line (Py.lower s).
Proof. induction s as [|c s IH]; [done|]. rewrite line_cons. simpl. by rewrite IH. Qed.

Lemma lower_length s : String.length (Py.lower s) = String.length s.
Proof. induction s as [|c s IH]; simpl; [done|]. by rewrite IH. Qed.

(** X15.  A newline at the end of the text is dropped for a number and
    kept for anything else: digits followed by a newline become the same
    integer as the digits alone, digits with a dot followed by a newline
    the same float, while "true" or "false" followed by a newline stays a
    string. *)
Theorem parse_value_final_newline (s : string) :
  (s ≠ "" → Py.all_digits s = true →
   parse_value (Some (line s)) = PyInt (Py.digits_val 0 s))
  ∧ (∀ a b, s = a +:+ "." +:+ b → a ≠ "" →
       Py.all_digits a = true → Py.all_digits b = true →
       parse_value (Some (line s))
       = PyFloat (Py.nearest_binary64 (Py.digits_val (Py.digits_val 0 a) b)
                                      (String.length b)))
  ∧ (Py.lower s = "true" ∨ Py.lower s = "false" →
     parse_value (Some (line s)) = PyStr (line s)).
Proof.
  unfold parse_value, Py.match_digits, Py.match_decimal, Py.int_of_str,
    Py.float_of_str.
  rewrite chomp_line. repeat split.
  - intros Hne Hd. rewrite Hd. by destruct s.
  - intros a b -> Hne Ha Hb.
    rewrite cut_at_dot_app by (apply all_digits_free_of; [reflexivity|assumption]).
    rewrite !all_digits_app, Ha, Hb. simpl. rewrite andb_false_r.
    by destruct a.
  - intros Hl.
    assert (Hnum : Py.match_digits s = false ∧ Py.match_decimal s = false).
    { destruct Hl as [Hl|Hl]; by apply (lower_word_not_a_number s _ _ Hl). }
    assert (Hc : Py.chomp s = s).
    { apply not_line_chomp. intros s' ->. rewrite lower_line in Hl.
      destruct Hl as [Hl|Hl]; revert Hl;
        repeat (destruct s' as [|? s']; try discriminate). }
    destruct Hnum as [H1 H2]. unfold Py.match_digits, Py.match_decimal in H1, H2.
    rewrite Hc in H1, H2. rewrite H1, H2, lower_line.
    by destruct Hl as [-> | ->].
Qed.

(** "42" and "True", each followed by a newline. *)
Lemma parse_value_final_newline_witness :
  parse_value (Some (line "42")) = PyInt 42
  ∧ parse_value (Some (line "True")) = PyStr (line "True").
Proof.
  split.
  - by apply (proj1 (parse_value_final_newline "42")).
  - apply (proj2 (proj2 (parse_value_final_newline "True"))). by left.
Defined.


(** X16.  [parse_value] gives a boolean for exactly the texts that read
    "true" or "false" when put in lower case. *)
Theorem parse_value_boolean_iff (s : string) (b : bool) :
  parse_value (Some s) = PyBool b
  ↔ Py.lower s = (if b then "true" else "false").
Proof.
  unfold parse_value. split.
  - destruct (Py.match_digits s); [done|].
    destruct (Py.match_decimal s); [done|].
    destruct (String.eqb_spec (Py.lower s) "true") as [Ht|Ht].
    { intros [= <-]. done. }
    destruct (String.eqb_spec (Py.lower s) "false") as [Hf|Hf]; [|done].
    intros [= <-]. done.
  - intros Hl.
    destruct (lower_word_not_a_number s
                (if b then "t" else "f")%char
                (if b then "rue" else "alse")) as [-> ->];
      [by destruct b..|].
    rewrite Hl. by destruct b.
Qed.



Lemma digits_val_nonneg s acc :
  Py.all_digits s = true → (0 ≤ acc)%Z → (0 ≤ Py.digits_val acc s)%Z.
Proof.
  revert acc. induction s as [|c s IH]; intros acc; simpl; [done|].
  intros [Hc Hs]%andb_true_iff Hacc. apply IH; [done|].
  unfold Py.is_digit in Hc. apply andb_true_iff in Hc as [Hlo%N.leb_le _].
  unfold Py.digit_val. lia.
Qed.

(** X18.  [parse_value] never gives a negative integer. *)
Theorem parse_value_integer_not_negative (s : string) (n : Z) :
  parse_value (Some s) = PyInt n → (0 ≤ n)%Z.
Proof.
  unfold parse_value.
  destruct (Py.match_digits s) eqn:Hd.
  - intros [= <-]. unfold Py.match_digits in Hd.
    apply andb_true_iff in Hd as [_ Hd]. by apply digits_val_nonneg.
  - destruct (Py.match_decimal s); [done|].
    destruct (String.eqb _ _); [done|]. by destruct (String.eqb _ _).
Qed.

Lemma parse_value_integer_not_negative_witness :
  parse_value (Some "42") = PyInt 42 ∧ (0 ≤ 42)%Z.
Proof.
  split; [reflexivity|]. by apply (parse_value_integer_not_negative "42" 42).
Defined.

(** ** generate_system_username *)

Lemma length_append (a b : string) :
  String.length (a +:+ b) = (String.length a + String.length b)%nat.
Proof. induction a as [|c a IH]; simpl; [done|]. by rewrite IH. Qed.

Lemma length_str_take n s :
  String.length (str_take n s) = (n `min` String.length s)%nat.
Proof.
  revert n. induction s as [|c s IH]; intros [|n]; simpl; try done.
  by rewrite IH.
Qed.

Lemma str_take_all n s : (String.length s ≤ n)%nat → str_take n s = s.
Proof.
  revert n. induction s as [|c s IH]; intros [|n]; simpl; try done; [lia|].
  intros Hlen. rewrite IH; [done|lia].
Qed.

Lemma str_take_take n m s :
  str_take n (str_take m s) = str_take (n `min` m) s.
Proof.
  revert n m. induction s as [|c s IH]; intros [|n] [|m]; simpl; try done.
  by rewrite IH.
Qed.

Lemma str_take_append n a b :
  (n ≤ String.length a)%nat → str_take n (a +:+ b) = str_take n a.
Proof.
  revert n. induction a as [|c a IH]; intros [|n]; simpl; try done.
  - by destruct b.
  - lia.
  - intros Hlen. rewrite IH; [done|lia].
Qed.

(** X19.  Whatever the mode, a name that [generate_system_username]
    returns has at most 32 characters. *)
Theorem system_username_fits sha256_hexdigest env_at_import env username name :
  generate_system_username sha256_hexdigest env_at_import env username = inr name →
  (String.length name ≤ 32)%nat.
Proof.
  unfold generate_system_username.
  destruct (match env with Some _ => _ | None => _ end); try done.
  destruct (String.eqb _ _).
  - destruct (Nat.ltb_spec (String.length username) 26); intros [= <-]; [lia|].
    rewrite !length_append, !length_str_take. cbn [String.length]. lia.
  - destruct (Nat.leb_spec (String.length username) 32); intros [= <-]; [lia|].
    rewrite length_str_take. lia.
Qed.

(** A name of 40 characters, hashing on. *)
Lemma system_username_fits_witness :
  (String.length "abcdefghijklmnopqrstuvwxyz-78a58" ≤ 32)%nat.
Proof.
  apply (system_username_fits sample_digest None (Some "True")
           "abcdefghijklmnopqrstuvwxyzabcdefghijklmn").
  reflexivity.
Defined.

(** X20.  The first 26 characters of the user name are the first 26
    characters of the name returned, and a user name shorter than 26
    characters is returned as it is. *)
Theorem system_username_keeps_the_start
    sha256_hexdigest env_at_import env username name :
  generate_system_username sha256_hexdigest env_at_import env username = inr name →
  str_take 26 name = str_take 26 username
  ∧ ((String.length username < 26)%nat → name = username).
Proof.
  unfold generate_system_username.
  destruct (match env with Some _ => _ | None => _ end); try done.
  destruct (String.eqb _ _).
  - destruct (Nat.ltb_spec (String.length username) 26); intros [= <-]; [done|].
    split; [|lia].
    rewrite str_take_append; [by rewrite str_take_take|].
    rewrite length_str_take. lia.
  - destruct (Nat.leb_spec (String.length username) 32); intros [= <-]; [done|].
    split; [|lia]. by rewrite str_take_take.
Qed.

Lemma system_username_keeps_the_start_witness :
  str_take 26 "abcdefghijklmnopqrstuvwxyz-78a58"
  = str_take 26 "abcdefghijklmnopqrstuvwxyzabcdefghijklmn"
  ∧ ((String.length "abcdefghijklmnopqrstuvwxyzabcdefghijklmn" < 26)%nat →
     "abcdefghijklmnopqrstuvwxyz-78a58"
     = "abcdefghijklmnopqrstuvwxyzabcdefghijklmn").
Proof.
  apply (system_username_keeps_the_start sample_digest None
           (Some "True")).
  reflexivity.
Defined.

(** X21.  [generate_system_username] raises exactly when the variable
    TLJH_HASH_USERNAME was set neither when config.py was imported nor at
    the time of the call: the default [True] has no method [lower]. *)
Theorem system_username_raises_iff_unset
    sha256_hexdigest env_at_import env username :
  (∃ e, generate_system_username sha256_hexdigest env_at_import env username = inl e)
  ↔ env_at_import = None ∧ env = None.
Proof.
  unfold generate_system_username, HASH_USERNAME. split.
  - intros [e He]. destruct env as [s|], env_at_import as [s0|]; try done;
      revert He; repeat case_match; done.
  - intros [-> ->]. by eexists.
Qed.



(** X23.  With hashing off, the name returned is the user name cut to 32
    characters, and it is returned unchanged when it is passed in
    again. *)
Theorem unhashed_username_is_stable
    sha256_hexdigest env_at_import env setting username :
  match env with Some s => Some s | None => env_at_import end = Some setting →
  Py.lower setting ≠ "true" →
  generate_system_username sha256_hexdigest env_at_import env username
  = inr (str_take 32 username)
  ∧ generate_system_username sha256_hexdigest env_at_import env
      (str_take 32 username)
    = inr (str_take 32 username).
Proof.
  intros Hset Hl.
  assert (Hrun : ∀ u,
    generate_system_username sha256_hexdigest env_at_import env u
    = inr (str_take 32 u)).
  { intros u. unfold generate_system_username, HASH_USERNAME.
    destruct env as [s|]; [|destruct env_at_import as [s|]; [|done]];
      injection Hset as ->;
      rewrite (proj2 (String.eqb_neq _ _) Hl);
      (destruct (Nat.leb_spec (String.length u) 32);
        [by rewrite str_take_all|done]). }
  split; [apply Hrun|]. rewrite Hrun. by rewrite str_take_take.
Qed.

Lemma unhashed_username_is_stable_witness :
  generate_system_username (fun _ => "") (Some "false") None
    "abcdefghijklmnopqrstuvwxyzabcdefghijklmn"
  = inr "abcdefghijklmnopqrstuvwxyzabcdef"
  ∧ generate_system_username (fun _ => "") (Some "false") None
      "abcdefghijklmnopqrstuvwxyzabcdef"
    = inr "abcdefghijklmnopqrstuvwxyzabcdef".
Proof.
  apply (unhashed_username_is_stable (fun _ => "") (Some "false") None "false"
           "abcdefghijklmnopqrstuvwxyzabcdefghijklmn"); [reflexivity|discriminate].
Defined.

(** ** main *)





(** ** What unset leaves alone, and list operations on a string *)

Lemma unset_pruned_frame path : ∀ doc leaf other,
  get_at doc path = Some leaf →
  diverge path other →
  get_at (unset_pruned doc path) other = get_at doc other.
Proof.
  induction path as [|k rest IH]; intros doc leaf other Hget Hdiv.
  { destruct Hdiv as (common & k1 & r1 & k2 & r2 & Hp & _). by destruct common. }
  destruct (get_at_cons_dict _ _ _ _ Hget) as (m & c & -> & Hk & Hc).
  destruct Hdiv as (common & k1 & r1 & k2 & r2 & Hp & -> & Hne).
  destruct common as [|k0 common]; simpl in Hp; injection Hp as <- Hrest.
  - (* the paths part at the root *)
    assert (Hfr : ∀ m', m' !! k2 = m !! k2 →
              get_at (PyDict m') ([] ++ k2 :: r2) = get_at (PyDict m) ([] ++ k2 :: r2)).
    { intros m' Hm'. simpl. by rewrite Hm'. }
    destruct rest as [|a q].
    + rewrite unset_pruned_single. apply Hfr. by rewrite lookup_delete_ne.
    + rewrite (unset_pruned_cons _ _ _ _ _ Hk). cbv zeta.
      destruct (Py.equal _ _); apply Hfr.
      * by rewrite lookup_delete_ne.
      * by rewrite lookup_insert_ne.
  - (* the paths part below [k] *)
    subst rest.
    assert (Hdiv : diverge (common ++ k1 :: r1) (common ++ k2 :: r2)).
    { by exists common, k1, r1, k2, r2. }
    pose proof (IH c leaf _ Hc Hdiv) as Hsub.
    destruct (app_cons_not_nil common k1 r1) as (a & q & Haq).
    rewrite Haq in *. rewrite (unset_pruned_cons _ _ _ _ _ Hk). cbv zeta.
    destruct (Py.equal _ _) eqn:Heq.
    + apply equal_empty_dict in Heq. rewrite Heq in Hsub.
      simpl. rewrite lookup_delete_eq, Hk, <- Hsub.
      symmetry. apply get_at_empty_dict. by destruct common.
    + simpl. by rewrite lookup_insert_eq, Hk.
Qed.

(** X26.  [unset_item_from_config] changes nothing off its path: when it
    removes a path, a path that parts ways with it leads to the same thing
    in the document returned as in the original, pruning included. *)
Theorem unset_leaves_other_paths σ config doc property_path leaf other :
  deref σ config = Some doc →
  get_at doc (Py.split_on "." property_path) = Some leaf →
  diverge (Py.split_on "." property_path) other →
  ∃ doc', unset_item_from_config config property_path σ
          = (Ok (Ref (length σ) []), σ ++ [doc'])
        ∧ get_at doc' other = get_at doc other.
Proof.
  intros Hdoc Hget Hdiv. eexists. split.
  - rewrite (unset_item_from_config_run _ _ _ _ Hdoc).
    by rewrite (unset_tree_resolved _ _ leaf _ (split_on_not_nil _ _) Hget).
  - rewrite (spec_unset_pruned _ _ _ Hget). by eapply unset_pruned_frame.
Qed.

(** Unsetting [a.b.c] in [{a: {b: {c: 5}}, x: "hello"}] prunes [a] and
    keeps [x]. *)
Lemma unset_leaves_other_paths_witness :
  ∃ doc', unset_item_from_config (Ref 0 []) "a.b.c" [doc_abc_x]
          = (Ok (Ref 1 []), [doc_abc_x; doc'])
        ∧ get_at doc' ["x"] = Some (PyStr "hello").
Proof.
  destruct (unset_leaves_other_paths [doc_abc_x] (Ref 0 []) doc_abc_x "a.b.c"
              (PyInt 5) ["x"] eq_refl eq_refl) as (doc' & Hrun & Hx).
  - exists [], "a", ["b"; "c"], "x", []. done.
  - exists doc'. split; [exact Hrun|]. rewrite Hx. reflexivity.
Defined.

(** X27.  When the key path leads through mappings to a string, neither
    list operation treats it as "not a list": [_is_list] accepts the
    string, and [add_item_to_config] and [remove_item_from_config] raise
    [AttributeError] from [append] and [remove]; the copy is as the input
    was. *)
Theorem list_operations_on_string_raise
    σ config doc property_path parent m key s value :
  deref σ config = Some doc →
  Py.split_on "." property_path = parent ++ [key] →
  get_at doc parent = Some (PyDict m) →
  m !! key = Some (PyStr s) →
  add_item_to_config config property_path value σ
  = (Raise AttributeError, σ ++ [doc])
  ∧ remove_item_from_config config property_path value σ
    = (Raise AttributeError, σ ++ [doc]).
Proof.
  intros Hdoc Hsplit Hget Hkey. split.
  - rewrite (add_item_to_config_run _ _ _ _ _ Hdoc). cbv zeta.
    rewrite Hsplit, (add_tree_resolved _ _ _ _ _ Hget).
    cbn [add_in]. rewrite Hkey. simpl. by rewrite (put_at_id _ _ _ Hget).
  - rewrite (remove_item_from_config_run _ _ _ _ _ Hdoc), Hsplit.
    destruct (get_at_root_dict _ _ _ Hget) as [m0 ->].
    destruct (app_cons_not_nil parent key []) as (x & y & Hxy).
    rewrite Hxy. cbn [remove_tree]. rewrite <- Hxy.
    rewrite (remove_in_error_prefix parent m0 m [key] value property_path
               AttributeError Hget); [done|done|].
    cbn [remove_in]. by rewrite Hkey.
Qed.

(** [add_item("a.b", 1)] and [remove_item("a.b", 1)] on
    [{a: {b: "hello"}}]. *)
Lemma list_operations_on_string_raise_witness :
  add_item_to_config (Ref 0 []) "a.b" (PyInt 1) [doc_ab_str]
  = (Raise AttributeError, [doc_ab_str] ++ [doc_ab_str])
  ∧ remove_item_from_config (Ref 0 []) "a.b" (PyInt 1) [doc_ab_str]
    = (Raise AttributeError, [doc_ab_str] ++ [doc_ab_str]).
Proof.
  apply (list_operations_on_string_raise [doc_ab_str] (Ref 0 []) doc_ab_str
           "a.b" ["a"] {[ "b" := PyStr "hello" ]} "b" "hello" (PyInt 1));
    reflexivity.
Defined.
